(** * Survey dashboard: filtering, aggregation and report requests

    A shallow embedding of [app.component.ts] (the dashboard component) and
    of [DataService.loadDataFromSheet] (the spreadsheet importer), with the
    properties of the specification stated over it.

    Conventions.
    - A JavaScript string is represented by its UTF-8 bytes ([string]).
    - [undefined] is [None]; a property read [d[key]] on a row, where [key]
      is one of the fixed column headers, is a lookup in a finite map; a read
      of an object literal by a key that comes from the data is [JS.get],
      which also finds what the literal inherits from [Object.prototype].
    - A [Date] is its time value in milliseconds, [None] for an invalid date.
    - An integer-valued [Number] is a [Z]; the quotients the component
      computes are binary64 values, modelled by [float64] below.
    - Signals are fields of the component state; a method is a function from
      state to state.  Calls to the generation service are recorded in the
      [requests] field, in the order they are issued. *)

From Stdlib Require Import ZArith Lia Ascii String Floats.SpecFloat.
From Stdlib Require Import Sorted Permutation.
From stdpp Require Import base strings gmap list pretty.

Open Scope Z_scope.

(** ** JavaScript strings *)

Module JS.

Definition bytes (l : list N) : string :=
  foldr (fun n s => String (ascii_of_N n) s) EmptyString l.

(** [WhiteSpace] and [LineTerminator] code points of ECMAScript, in UTF-8:
    TAB, LF, VT, FF, CR, SP, U+00A0, U+1680, U+2000 to U+200A, U+2028,
    U+2029, U+202F, U+205F, U+3000 and U+FEFF. *)
Definition StrWhiteSpaceChar : list string :=
  [ bytes [9%N]; bytes [10%N]; bytes [11%N]; bytes [12%N]; bytes [13%N];
    bytes [32%N]; bytes [194%N; 160%N]; bytes [225%N; 154%N; 128%N] ]
  ++ map (fun n => bytes [226%N; 128%N; n])
       [128%N; 129%N; 130%N; 131%N; 132%N; 133%N; 134%N; 135%N; 136%N;
        137%N; 138%N; 168%N; 169%N; 175%N]
  ++ [ bytes [226%N; 129%N; 159%N]; bytes [227%N; 128%N; 128%N];
       bytes [239%N; 187%N; 191%N] ].

Fixpoint strip_prefix (p s : string) : option string :=
  match p, s with
  | EmptyString, _ => Some s
  | String a p', String b s' => if Ascii.eqb a b then strip_prefix p' s' else None
  | String _ _, EmptyString => None
  end.

Fixpoint strip_any (ps : list string) (s : string) : option string :=
  match ps with
  | [] => None
  | p :: ps' =>
      match strip_prefix p s with
      | Some r => Some r
      | None => strip_any ps' s
      end
  end.

Fixpoint strip_all (fuel : nat) (ps : list string) (s : string) : string :=
  match fuel with
  | O => s
  | S fuel' =>
      match strip_any ps s with
      | Some r => strip_all fuel' ps r
      | None => s
      end
  end.

(** [String.prototype.trimStart]; every stripped sequence is non-empty, so
    the length of the string is enough fuel. *)
Definition trimStart (s : string) : string :=
  strip_all (String.length s) StrWhiteSpaceChar s.

(** [String.prototype.trimEnd]: the same scan on the reversed bytes.  UTF-8
    is self-synchronising, so a byte sequence of a white-space code point at
    the end of a well-formed string is that code point. *)
Definition trimEnd (s : string) : string :=
  String.rev (strip_all (String.length s) (map String.rev StrWhiteSpaceChar) (String.rev s)).

(** [String.prototype.trim] *)
Definition trim (s : string) : string := trimEnd (trimStart s).

(** [v?.trim()] *)
Definition opt_trim (v : option string) : option string := trim <$> v.

Definition lower_ascii (c : ascii) : ascii :=
  let n := N_of_ascii c in
  if ((65 <=? n) && (n <=? 90))%N then ascii_of_N (n + 32) else c.

(** [String.prototype.toLowerCase] on the ASCII letters.  The component only
    compares the result with the words [no], [ninguna], [ninguno], [nada];
    no code point outside ASCII lower-cases to one of their letters, so the
    comparison is the one JavaScript makes. *)
Fixpoint toLowerCase (s : string) : string :=
  match s with
  | EmptyString => EmptyString
  | String c s' => String (lower_ascii c) (toLowerCase s')
  end.

(** Value of [c] as a digit in [radix], when it is one. *)
Definition digit_value (radix : Z) (c : ascii) : option Z :=
  let n := Z.of_N (N_of_ascii c) in
  let v := if (48 <=? n) && (n <=? 57) then Some (n - 48)
           else if (97 <=? n) && (n <=? 122) then Some (n - 87)
           else if (65 <=? n) && (n <=? 90) then Some (n - 55)
           else None in
  match v with
  | Some d => if d <? radix then Some d else None
  | None => None
  end.

(** Longest prefix of digits, read in [radix]; [acc] is [None] until a digit
    has been seen. *)
Fixpoint parse_digits (radix : Z) (s : string) (acc : option Z) : option Z :=
  match s with
  | EmptyString => acc
  | String c s' =>
      match digit_value radix c with
      | Some d => parse_digits radix s' (Some (radix * default 0 acc + d))
      | None => acc
      end
  end.

Definition parse_sign (s : string) : Z * string :=
  match s with
  | String "-" r => (-1, r)
  | String "+" r => (1, r)
  | _ => (1, s)
  end.

Definition parse_radix (s : string) : Z * string :=
  match s with
  | String "0" (String "x" r) => (16, r)
  | String "0" (String "X" r) => (16, r)
  | _ => (10, s)
  end.

(** [parseInt(v)] with no radix argument; [None] is [NaN].  [undefined] is
    first converted to the string [undefined], which has no digits.  The
    result is the integer read; JavaScript rounds it to binary64, which is
    monotone and leaves every integer below [2^53] as it is, so comparisons
    with small constants agree. *)
Definition parseInt (v : option string) : option Z :=
  match v with
  | None => None
  | Some s =>
      let '(sign, s1) := parse_sign (trimStart s) in
      let '(radix, s2) := parse_radix s1 in
      match parse_digits radix s2 None with
      | Some n => Some (sign * n)
      | None => None
      end
  end.

Fixpoint take_while (p : ascii -> bool) (s : string) : string :=
  match s with
  | EmptyString => EmptyString
  | String c s' => if p c then String c (take_while p s') else EmptyString
  end.

(** Leftmost match of the regular expression [lit(cls+)]: the captured
    group, which is greedy. *)
Fixpoint regex_capture (lit : string) (cls : ascii -> bool) (s : string) : option string :=
  let here :=
    match strip_prefix lit s with
    | Some r => match take_while cls r with
                | EmptyString => None
                | run => Some run
                end
    | None => None
    end in
  match here with
  | Some run => Some run
  | None => match s with
            | EmptyString => None
            | String _ s' => regex_capture lit cls s'
            end
  end.

Definition is_digit (c : ascii) : bool :=
  let n := N_of_ascii c in ((48 <=? n) && (n <=? 57))%N.

Definition is_alpha (c : ascii) : bool :=
  let n := N_of_ascii c in
  (((97 <=? n) && (n <=? 122)) || ((65 <=? n) && (n <=? 90)))%N.

(** [s.split(c)[0]]: the part of [s] before the first [c] *)
Fixpoint split_head (c : ascii) (s : string) : string :=
  match s with
  | EmptyString => EmptyString
  | String a s' => if Ascii.eqb a c then EmptyString else String a (split_head c s')
  end.

(** [s.replace(/a/g, b)] for single characters *)
Fixpoint replace_char (a b : ascii) (s : string) : string :=
  match s with
  | EmptyString => EmptyString
  | String x s' => String (if Ascii.eqb x a then b else x) (replace_char a b s')
  end.

Definition LF : string := String (ascii_of_N 10) EmptyString.
Definition dquote : string := String (ascii_of_N 34) EmptyString.

(** [Array.prototype.join] *)
Fixpoint join (sep : string) (l : list string) : string :=
  match l with
  | [] => EmptyString
  | [x] => x
  | x :: l' => x +:+ sep +:+ join sep l'
  end.

(** Truthiness of a string value: [undefined] and the empty string are falsy. *)
Definition truthy (v : option string) : bool :=
  match v with
  | Some (String _ _) => true
  | _ => false
  end.

(** [!s] on a string *)
Definition not_ (s : string) : bool := negb (truthy (Some s)).

(** [a || b] on strings: [a] when it is truthy, else [b] *)
Definition or_else (a : option string) (b : string) : string :=
  match a with
  | Some (String c r) => String c r
  | _ => b
  end.

(** ** Object literals *)

(** The names of the properties that an object literal inherits from
    [Object.prototype] in a browser. *)
Definition Object_prototype : list string :=
  [ "constructor"; "__defineGetter__"; "__defineSetter__"; "hasOwnProperty";
    "__lookupGetter__"; "__lookupSetter__"; "isPrototypeOf"; "propertyIsEnumerable";
    "toString"; "valueOf"; "__proto__"; "toLocaleString" ].

(** What a property read [o[key]] on an object literal gives when it is not
    [undefined]: the value of an own property, or the value inherited from
    [Object.prototype] under that name (a function, or the prototype object
    for [__proto__]). *)
Inductive Property (A : Type) :=
  | Own (v : A)
  | Inherited (name : string).

Arguments Own {A} v.
Arguments Inherited {A} name.

#[global] Instance Property_eq_dec {A : Type} `{EqDecision A} : EqDecision (Property A).
Proof. solve_decision. Defined.

(** [o[key]] for an object literal with the own properties [o]; [None] is
    [undefined].  An [undefined] key reads the property named [undefined]. *)
Definition get {A : Type} (o : gmap string A) (key : option string) : option (Property A) :=
  let k := default "undefined" key in
  match o !! k with
  | Some v => Some (Own v)
  | None => if bool_decide (k ∈ Object_prototype) then Some (Inherited k) else None
  end.

(** ** binary64 quotients *)

(** A positive finite binary64 value [mant * 2^expo]. *)
Record float64 := { mant : Z; expo : Z }.

(** Nearest integer to [num / den], the even one on a tie. *)
Definition round_half_even (num den : Z) : Z :=
  let q := num / den in
  let r := num mod den in
  if 2 * r <? den then q
  else if den <? 2 * r then q + 1
  else if Z.even q then q else q + 1.

(** [floor (log2 (s / n))] for positive [s] and [n]. *)
Definition binade (s n : Z) : Z :=
  let k := Z.log2 s - Z.log2 n in
  if s * 2 ^ Z.max 0 (- k) <? n * 2 ^ Z.max 0 k then k - 1 else k.

(** [s / n] in binary64, for positive integers below [2^53] (which are
    binary64 values): the quotient lies between [2^-53] and [2^53], so the
    result is normal, with 53 significant bits, rounded to nearest even.  A
    mantissa rounded up to [2^53] denotes the first value of the next
    binade. *)
Definition div (s n : Z) : float64 :=
  let e := binade s n - 52 in
  {| mant := round_half_even (s * 2 ^ Z.max 0 (- e)) (n * 2 ^ Z.max 0 e);
     expo := e |}.

(** [x >= y] on binary64 values *)
Definition geb (x y : float64) : bool :=
  mant y * 2 ^ Z.max 0 (expo y - expo x) <=? mant x * 2 ^ Z.max 0 (expo x - expo y).

(** The integer [n] for which [n / 100] is nearest to [x], the larger one on
    a tie ([Number.prototype.toFixed], step 6 for two fraction digits). *)
Definition hundredths (x : float64) : Z :=
  (200 * mant x * 2 ^ Z.max 0 (expo x) + 2 ^ Z.max 0 (- expo x))
  / (2 * 2 ^ Z.max 0 (- expo x)).

Definition two_digits (n : Z) : string :=
  if n <? 10 then "0" +:+ pretty n else pretty n.

(** The decimal text of [n / 100] with two fraction digits, [n >= 0]. *)
Definition fixed2 (n : Z) : string :=
  pretty (n / 100) +:+ "." +:+ two_digits (n mod 100).

(** [x.toFixed(2)] for a positive value below [10^21]. *)
Definition toFixed2 (x : float64) : string := fixed2 (hundredths x).

(** The same value in the Standard Library's specification of IEEE 754
    arithmetic, to compare [div] with [SFdiv]. *)
Definition to_spec_float (x : float64) : spec_float :=
  S754_finite false (Z.to_pos (mant x)) (expo x).

Definition same_float (a b : spec_float) : bool :=
  match a, b with
  | S754_finite sa ma ea, S754_finite sb mb eb =>
      Bool.eqb sa sb && Pos.eqb ma mb && Z.eqb ea eb
  | _, _ => false
  end.

(** [div s n] is the binary64 quotient [SFdiv] computes. *)
Definition agrees_with_SFdiv (s n : positive) : bool :=
  same_float
    (SFdiv 53 1024 (S754_finite false s 0) (S754_finite false n 0))
    (to_spec_float (div (Z.pos s) (Z.pos n))).

End JS.

(** ** Platform functions and the outside world *)

(** A [Date]: its time value, [None] when the date is invalid. *)
Definition Date := option Z.

(** Library functions the component calls and that are taken as given. *)
Record Platform := {
  (** [new Date(s).getTime()], [None] when [s] is not a date *)
  Date_parse : string -> option Z;
  (** the time value after [setHours(23, 59, 59, 999)], in local time *)
  setHours_end_of_day : Z -> Z;
  (** [toLocaleDateString('es-ES')] *)
  toLocaleDateString : Date -> string;
  (** [String.prototype.toUpperCase] *)
  toUpperCase : string -> string;
  (** [marked.parse] *)
  marked_parse : string -> string;
  (** the text of the [Number] that [parseInt] returns for an integer of
      absolute value [2^53] or more: the digits of the binary64 value, which
      [Number::toString] leaves in part to the engine *)
  Number_toString : Z -> string
}.

(** What [Papa.parse] hands to its [complete] callback: the messages of the
    errors it found and the rows, each an object keyed by header. *)
Record PapaResults := {
  errors : list string;
  data : list (gmap string string)
}.

Inductive PapaOutcome :=
  | PapaComplete (results : PapaResults)
  | PapaError (message : string).

(** The network and the CSV parser, as seen by one import. *)
Record World := {
  (** [http.get(csvUrl, {responseType: 'text'})]: the body, or the message
      of the failure *)
  http_get : string -> string + string;
  Papa_parse : string -> PapaOutcome
}.

(** ** [models/ticket-data.model.ts] *)

(** A response record: the [Timestamp] is a [Date]; every other property is
    a string read from the CSV. *)
Record TicketData := {
  Timestamp : Date;
  answers : gmap string string
}.

Definition field (d : TicketData) (key : string) : option string := answers d !! key.
Definition Materia (d : TicketData) : option string := field d "Materia".
Definition Paralelo (d : TicketData) : option string := field d "Paralelo".

(** ** [DataService] *)

Module DataService.

Definition learningIndex : string :=
  "¿Cuál es el aprendizaje más importante que te llevas de la clase de hoy?".
Definition confusedIndex : string :=
  "¿Qué punto de la clase te resultó más confuso o te dejó con dudas?".
Definition questionIndex : string :=
  "¿Tienes alguna pregunta que te gustaría que sea respondida la siguiente clase?".
Definition comprehensionIndex : string :=
  "Sobre tu nivel de comprensión de la clase de hoy, marca una opción:  ".
Definition suggestionIndex : string :=
  "¿Cómo puedo ayudarte a comprender mejor el tema avanzado?".
Definition engagementIndex : string :=
  "Pensando en tu participación y esfuerzo en la clase de hoy, ¿cómo te autoevaluarías? Marca una opción:".
Definition scoreIndex : string :=
  "Mi satisfacción con la clase fue... (Califica la clase de hoy en un puntaje del 1 al 10, donde 1 es insatisfecho y 10 es muy satisfecho)".

Definition requiredHeaders : list string :=
  [ "Timestamp"; "Email Address"; "Materia"; "Paralelo";
    learningIndex; confusedIndex; questionIndex;
    comprehensionIndex; suggestionIndex; engagementIndex; scoreIndex ].

(** The errors [loadDataFromSheet] rejects with, one per [throw] or
    [reject] of the source, and the rejection of the HTTP request. *)
Inductive LoadError :=
  | EmptyUrl
  | InvalidUrl
  | FetchError (message : string)
  | ParseError (first : string)
  | EmptySheet
  | SchemaMismatch
  | PapaLoadError (message : string).

(** [error.message] *)
Definition message (e : LoadError) : string :=
  match e with
  | EmptyUrl => "Por favor, introduce una URL válida."
  | InvalidUrl => "Formato de URL no válido. Por favor, usa la URL estándar de Google Sheet."
  | FetchError m => m
  | ParseError first => "No se pudo analizar el archivo CSV. " +:+ first
  | EmptySheet => "La hoja de cálculo está vacía o no tiene datos válidos."
  | SchemaMismatch => "La estructura de la hoja de cálculo no coincide con el formato esperado. Por favor, revisa los encabezados de las columnas."
  | PapaLoadError m => "No se pudo cargar la hoja de cálculo. Asegúrate de que la URL sea correcta y que la hoja sea pública. " +:+ m
  end.

(** The class [[a-zA-Z0-9-_]] *)
Definition id_char (c : ascii) : bool :=
  JS.is_alpha c || JS.is_digit c || Ascii.eqb c "-" || Ascii.eqb c "_".

(** [url.match(/\/d\/([a-zA-Z0-9-_]+)/)], the captured identifier *)
Definition match_sheet_id (url : string) : option string :=
  JS.regex_capture "/d/" id_char url.

(** [url.match(/gid=(\d+)/)], the captured digits *)
Definition match_gid (url : string) : option string :=
  JS.regex_capture "gid=" JS.is_digit url.

Definition csvUrl (sheetId gid : string) : string :=
  "https://docs.google.com/spreadsheets/d/" +:+ sheetId
  +:+ "/export?format=csv&gid=" +:+ gid.

(** [headers.includes(header)] for [headers = Object.keys(row)] *)
Definition has_header (row : gmap string string) (header : string) : bool :=
  bool_decide (is_Some (row !! header)).

Definition hasAllRequired (row : gmap string string) : bool :=
  forallb (has_header row) requiredHeaders.

(** [{...d, Timestamp: new Date(d.Timestamp)}] *)
Definition to_ticket (P : Platform) (d : gmap string string) : TicketData :=
  {| Timestamp := d !! "Timestamp" ≫= Date_parse P;
     answers := delete "Timestamp" d |}.

Definition processedData (P : Platform) (rows : list (gmap string string)) : list TicketData :=
  map (to_ticket P) (List.filter (fun row => JS.truthy (row !! "Materia")) rows).

(** The [complete] and [error] callbacks of [Papa.parse]. *)
Definition on_parsed (P : Platform) (o : PapaOutcome) : LoadError + list TicketData :=
  match o with
  | PapaError m => inl (PapaLoadError m)
  | PapaComplete results =>
      match errors results with
      | first :: _ => inl (ParseError first)
      | [] =>
          match data results with
          | [] => inl EmptySheet
          | row0 :: _ =>
              if hasAllRequired row0
              then inr (processedData P (data results))
              else inl SchemaMismatch
          end
      end
  end.

(** [loadDataFromSheet(url)]: [inl] is the rejection, [inr] the records. *)
Definition loadDataFromSheet (P : Platform) (W : World) (url : string)
  : LoadError + list TicketData :=
  if negb (JS.truthy (Some url)) then inl EmptyUrl
  else
    match match_sheet_id url with
    | None => inl InvalidUrl
    | Some sheetId =>
        let gid := default "0" (match_gid url) in
        match http_get W (csvUrl sheetId gid) with
        | inr m => inl (FetchError m)
        | inl csvData => on_parsed P (Papa_parse W csvData)
        end
    end.

End DataService.

(** ** [AppComponent] *)

Module AppComponent.

(** The value of a summary signal; [content = None] is [null]. *)
Record Summary := { loading : bool; content : option string }.

Definition createSummarySignal : Summary := {| loading := false; content := None |}.

(** UI state signals *)
Record UiState := {
  sheetUrl : string;
  isLoading : bool;
  errorMessage : option string;
  dataLoaded : bool
}.

(** Filters bound to the input controls *)
Record Filters := {
  startDate : string;
  endDate : string;
  selectedMateria : string;
  selectedParalelo : string
}.

(** Filters applied to the computation *)
Record AppliedFilters := {
  appliedStartDate : string;
  appliedEndDate : string;
  appliedSelectedMateria : string;
  appliedSelectedParalelo : string
}.

(** The six summary signals *)
Record Summaries := {
  learnings : Summary;
  confused : Summary;
  questions : Summary;
  suggestions : Summary;
  lessonPlan : Summary;
  studentGuide : Summary
}.

Record Toggles := {
  isPriorityListVisible : bool;
  isRawDataVisible : bool;
  isModalVisible : bool
}.

Record ModalForm := {
  modalNextTopic : string;
  modalNumStudents : string;
  modalClassDuration : string;
  modalMateriaOutcome : string;
  modalUnitOutcome : string;
  modalClassProduct : string;
  modalErrorMessage : option string
}.

(** Which summary signal a call writes to. *)
Inductive Signal :=
  | Learnings | Confused | Questions | Suggestions | LessonPlan | StudentGuide.

(** One call of [geminiService.generateContent], with the signal its
    continuation will write. *)
Record Request := {
  userQuery : string;
  systemPrompt : string;
  stateSignal : Signal
}.

(** The component: its signals, and the calls issued so far. *)
Record State := {
  ui : UiState;
  filters : Filters;
  applied : AppliedFilters;
  allData : list TicketData;
  summaries : Summaries;
  toggles : Toggles;
  modal : ModalForm;
  requests : list Request
}.

Definition initial : State :=
  {| ui := {| sheetUrl := ""; isLoading := false; errorMessage := None; dataLoaded := false |};
     filters := {| startDate := ""; endDate := ""; selectedMateria := ""; selectedParalelo := "" |};
     applied := {| appliedStartDate := ""; appliedEndDate := "";
                   appliedSelectedMateria := ""; appliedSelectedParalelo := "" |};
     allData := [];
     summaries := {| learnings := createSummarySignal; confused := createSummarySignal;
                     questions := createSummarySignal; suggestions := createSummarySignal;
                     lessonPlan := createSummarySignal; studentGuide := createSummarySignal |};
     toggles := {| isPriorityListVisible := false; isRawDataVisible := false;
                   isModalVisible := false |};
     modal := {| modalNextTopic := ""; modalNumStudents := ""; modalClassDuration := "";
                 modalMateriaOutcome := ""; modalUnitOutcome := ""; modalClassProduct := "";
                 modalErrorMessage := None |};
     requests := [] |}.

(** *** Writing a signal *)

Definition with_ui (f : UiState -> UiState) (st : State) : State :=
  {| ui := f (ui st); filters := filters st; applied := applied st; allData := allData st;
     summaries := summaries st; toggles := toggles st; modal := modal st;
     requests := requests st |}.

Definition with_filters (v : Filters) (st : State) : State :=
  {| ui := ui st; filters := v; applied := applied st; allData := allData st;
     summaries := summaries st; toggles := toggles st; modal := modal st;
     requests := requests st |}.

Definition with_applied (v : AppliedFilters) (st : State) : State :=
  {| ui := ui st; filters := filters st; applied := v; allData := allData st;
     summaries := summaries st; toggles := toggles st; modal := modal st;
     requests := requests st |}.

Definition with_allData (v : list TicketData) (st : State) : State :=
  {| ui := ui st; filters := filters st; applied := applied st; allData := v;
     summaries := summaries st; toggles := toggles st; modal := modal st;
     requests := requests st |}.

Definition with_summaries (f : Summaries -> Summaries) (st : State) : State :=
  {| ui := ui st; filters := filters st; applied := applied st; allData := allData st;
     summaries := f (summaries st); toggles := toggles st; modal := modal st;
     requests := requests st |}.

Definition with_toggles (f : Toggles -> Toggles) (st : State) : State :=
  {| ui := ui st; filters := filters st; applied := applied st; allData := allData st;
     summaries := summaries st; toggles := f (toggles st); modal := modal st;
     requests := requests st |}.

Definition with_modal (f : ModalForm -> ModalForm) (st : State) : State :=
  {| ui := ui st; filters := filters st; applied := applied st; allData := allData st;
     summaries := summaries st; toggles := toggles st; modal := f (modal st);
     requests := requests st |}.

Definition with_requests (f : list Request -> list Request) (st : State) : State :=
  {| ui := ui st; filters := filters st; applied := applied st; allData := allData st;
     summaries := summaries st; toggles := toggles st; modal := modal st;
     requests := f (requests st) |}.

Definition set_isLoading (v : bool) (u : UiState) : UiState :=
  {| sheetUrl := sheetUrl u; isLoading := v; errorMessage := errorMessage u;
     dataLoaded := dataLoaded u |}.

Definition set_errorMessage (v : option string) (u : UiState) : UiState :=
  {| sheetUrl := sheetUrl u; isLoading := isLoading u; errorMessage := v;
     dataLoaded := dataLoaded u |}.

Definition set_dataLoaded (v : bool) (u : UiState) : UiState :=
  {| sheetUrl := sheetUrl u; isLoading := isLoading u; errorMessage := errorMessage u;
     dataLoaded := v |}.

Definition set_sheetUrl (v : string) (u : UiState) : UiState :=
  {| sheetUrl := v; isLoading := isLoading u; errorMessage := errorMessage u;
     dataLoaded := dataLoaded u |}.

Definition set_isModalVisible (v : bool) (t : Toggles) : Toggles :=
  {| isPriorityListVisible := isPriorityListVisible t;
     isRawDataVisible := isRawDataVisible t; isModalVisible := v |}.

Definition set_modalErrorMessage (v : option string) (m : ModalForm) : ModalForm :=
  {| modalNextTopic := modalNextTopic m; modalNumStudents := modalNumStudents m;
     modalClassDuration := modalClassDuration m;
     modalMateriaOutcome := modalMateriaOutcome m;
     modalUnitOutcome := modalUnitOutcome m; modalClassProduct := modalClassProduct m;
     modalErrorMessage := v |}.

(** [signal()] *)
Definition read (sig : Signal) (s : Summaries) : Summary :=
  match sig with
  | Learnings => learnings s
  | Confused => confused s
  | Questions => questions s
  | Suggestions => suggestions s
  | LessonPlan => lessonPlan s
  | StudentGuide => studentGuide s
  end.

(** [signal.set(v)] *)
Definition write (sig : Signal) (v : Summary) (s : Summaries) : Summaries :=
  match sig with
  | Learnings =>
      {| learnings := v; confused := confused s; questions := questions s;
         suggestions := suggestions s; lessonPlan := lessonPlan s;
         studentGuide := studentGuide s |}
  | Confused =>
      {| learnings := learnings s; confused := v; questions := questions s;
         suggestions := suggestions s; lessonPlan := lessonPlan s;
         studentGuide := studentGuide s |}
  | Questions =>
      {| learnings := learnings s; confused := confused s; questions := v;
         suggestions := suggestions s; lessonPlan := lessonPlan s;
         studentGuide := studentGuide s |}
  | Suggestions =>
      {| learnings := learnings s; confused := confused s; questions := questions s;
         suggestions := v; lessonPlan := lessonPlan s;
         studentGuide := studentGuide s |}
  | LessonPlan =>
      {| learnings := learnings s; confused := confused s; questions := questions s;
         suggestions := suggestions s; lessonPlan := v;
         studentGuide := studentGuide s |}
  | StudentGuide =>
      {| learnings := learnings s; confused := confused s; questions := questions s;
         suggestions := suggestions s; lessonPlan := lessonPlan s;
         studentGuide := v |}
  end.

(** *** Filtering *)

Section Computed.

Context (P : Platform).

(** [a >= b] and [a <= b] on dates: both are converted to their time value,
    and a comparison with [NaN] is false. *)
Definition Date_geb (a b : Date) : bool :=
  match a, b with
  | Some x, Some y => y <=? x
  | _, _ => false
  end.

Definition Date_leb (a b : Date) : bool :=
  match a, b with
  | Some x, Some y => x <=? y
  | _, _ => false
  end.

(** The callback of [data.filter] in [filteredData].  [rowDate] is a [Date]
    object, which is truthy, so [rowDate && c] is [c].  [endDateTime] is
    [null] ([None]) when no end date is set; [null] compares as [0]. *)
Definition row_matches (start end_ materia paralelo : string) (row : TicketData) : bool :=
  let rowDate := Timestamp row in
  let isAfterStartDate := JS.not_ start || Date_geb rowDate (Date_parse P start) in
  let endDateTime : option Date :=
    if JS.truthy (Some end_)
    then Some (setHours_end_of_day P <$> Date_parse P end_)
    else None in
  let isBeforeEndDate := JS.not_ end_ || Date_leb rowDate (default (Some 0) endDateTime) in
  let isCorrectMateria := JS.not_ materia || bool_decide (Materia row = Some materia) in
  let isCorrectParalelo := JS.not_ paralelo || bool_decide (Paralelo row = Some paralelo) in
  isAfterStartDate && isBeforeEndDate && isCorrectMateria && isCorrectParalelo.

Definition filteredData (st : State) : list TicketData :=
  let data := allData st in
  let start := appliedStartDate (applied st) in
  let end_ := appliedEndDate (applied st) in
  let materia := appliedSelectedMateria (applied st) in
  let paralelo := appliedSelectedParalelo (applied st) in
  match data with
  | [] => []
  | _ :: _ => List.filter (row_matches start end_ materia paralelo) data
  end.

(** *** Summary cards *)

Definition totalResponses (st : State) : nat := length (filteredData st).

(** [.map(d => parseInt(d[scoreIndex])).filter(s => !isNaN(s) && s >= 1 && s <= 10)] *)
Definition valid_scores (data : list TicketData) : list Z :=
  List.filter (fun s => (1 <=? s) && (s <=? 10))
    (omap (fun d => JS.parseInt (field d DataService.scoreIndex)) data).

(** [scores.reduce((a, b) => a + b, 0)] *)
Definition sum (scores : list Z) : Z := foldl Z.add 0 scores.

(** The text [averageScore] computes from the filtered records. *)
Definition average_of (scores : list Z) : string :=
  match scores with
  | [] => "N/A"
  | _ :: _ => JS.toFixed2 (JS.div (sum scores) (Z.of_nat (length scores)))
  end.

Definition averageScore (st : State) : string :=
  average_of (valid_scores (filteredData st)).

Definition comprehensionMap : gmap string Z :=
  {[ "¡Entendido! - Lo domino y podría explicarlo." := 3;
     "Más o menos. - Entendí la idea general, pero tengo dudas." := 2;
     "No entendí casi nada. - Me siento bastante perdido/a." := 1 ]}.

(** The weight that the entries of [comprehensionMap] give to [key]: the
    own properties of the literal only. *)
Definition weight (key : option string) : option Z :=
  key ≫= fun k => comprehensionMap !! k.

(** The weights of the records whose answer is an entry of
    [comprehensionMap], in order. *)
Definition weights (data : list TicketData) : list Z :=
  omap (fun d => weight (JS.opt_trim (field d DataService.comprehensionIndex))) data.

(** [Boolean(value)]: a number other than 0, a function or an object. *)
Definition truthy_value (value : JS.Property Z) : bool :=
  match value with
  | JS.Own n => negb (n =? 0)
  | JS.Inherited _ => true
  end.

(** [.map(d => comprehensionMap[d[comprehensionIndex]?.trim()]).filter(Boolean)]:
    the read also finds what the literal inherits. *)
Definition scores_of (data : list TicketData) : list (JS.Property Z) :=
  List.filter truthy_value
    (omap (fun d => JS.get comprehensionMap
                      (JS.opt_trim (field d DataService.comprehensionIndex))) data).

(** [scores.reduce((a, b) => a + b, 0)] from the accumulator [acc]: a number
    as long as numbers are added.  Adding a function or an object makes the
    accumulator a string, and it stays one; the string holds the text of that
    value, so it is not a numeral: [None]. *)
Fixpoint add_all (acc : option Z) (scores : list (JS.Property Z)) : option Z :=
  match scores with
  | [] => acc
  | JS.Own n :: rest => add_all ((fun a => a + n) <$> acc) rest
  | JS.Inherited _ :: rest => add_all None rest
  end.

(** [x >= y] where [x] is [NaN] when it is [None] *)
Definition ge (x : option JS.float64) (y : JS.float64) : bool :=
  match x with
  | Some v => JS.geb v y
  | None => false
  end.

(** The label chosen from the scores; [2.7], [2.0] and [1.0] are the
    binary64 values of the literals.  A total that is not a number divides
    to [NaN]. *)
Definition comprehension_of (scores : list (JS.Property Z)) : string :=
  match scores with
  | [] => "N/A"
  | _ :: _ =>
      let avg := (fun total => JS.div total (Z.of_nat (length scores)))
                   <$> add_all (Some 0) scores in
      if ge avg (JS.div 27 10) then "¡Excelente Comprensión!"
      else if ge avg (JS.div 2 1) then "Buena (Pocas Dudas)"
      else if ge avg (JS.div 1 1) then "Media (Necesita Revisión)"
      else "Baja (Refuerzo Urgente)"
  end.

Definition averageComprehension (st : State) : string :=
  comprehension_of (scores_of (filteredData st)).

(** *** Priority list *)

Record PriorityStudent := {
  name : string;
  materia : option string;
  paralelo : option string;
  fecha : string;
  razon : string;
  badgeColor : string
}.

Definition comprehensionPriorityValue : string :=
  "No entendí casi nada. - Me siento bastante perdido/a.".

Definition comprehensionLabels : gmap string string :=
  {[ "¡Entendido! - Lo domino y podría explicarlo." := "Dominado";
     "Más o menos. - Entendí la idea general, pero tengo dudas." := "Dudas/Idea General";
     "No entendí casi nada. - Me siento bastante perdido/a." := "Perdido/a" ]}.

(** [!isNaN(score) && score <= 7] *)
Definition lowScore (d : TicketData) : bool :=
  match JS.parseInt (field d DataService.scoreIndex) with
  | Some score => score <=? 7
  | None => false
  end.

(** [d[comprehensionIndex]?.trim() === comprehensionPriorityValue] *)
Definition lowComprehension (d : TicketData) : bool :=
  bool_decide (JS.opt_trim (field d DataService.comprehensionIndex)
               = Some comprehensionPriorityValue).

(** The callback of [.filter] in [priorityStudents] *)
Definition is_priority (d : TicketData) : bool := lowScore d || lowComprehension d.

(** The text of [score] in a template; it is only used when [score] is a
    number.  An integer below [2^53] in absolute value is a binary64 value
    and is printed digit by digit; beyond that the text is the one of the
    binary64 value that [parseInt] returned. *)
Definition score_text (d : TicketData) : string :=
  match JS.parseInt (field d DataService.scoreIndex) with
  | Some score =>
      if Z.abs score <? 2 ^ 53 then pretty score else Number_toString P score
  | None => "NaN"
  end.

Definition reason (d : TicketData) : string :=
  if lowComprehension d && lowScore d then
    "Comprensión Baja y Satisfacción Baja (" +:+ score_text d +:+ "/10)"
  else if lowComprehension d then
    "Comprensión Baja: "
    +:+ JS.or_else (JS.opt_trim (field d DataService.comprehensionIndex)
                    ≫= fun k => comprehensionLabels !! k) "N/A"
  else if lowScore d then
    "Satisfacción Baja (" +:+ score_text d +:+ "/10)"
  else "".

Definition badge (d : TicketData) : string :=
  if lowComprehension d && lowScore d then "bg-red-700"
  else if lowComprehension d then "bg-red-500"
  else "bg-yellow-600".

(** The callback of [.map] in [priorityStudents] *)
Definition to_priority (d : TicketData) : PriorityStudent :=
  {| name := JS.or_else
               ((fun e => toUpperCase P (JS.replace_char "." " " (JS.split_head "@" e)))
                  <$> field d "Email Address")
               "Desconocido";
     materia := Materia d;
     paralelo := Paralelo d;
     fecha := toLocaleDateString P (Timestamp d);
     razon := reason d;
     badgeColor := badge d |}.

Definition priorityStudents (st : State) : list PriorityStudent :=
  map to_priority (List.filter is_priority (filteredData st)).

End Computed.

(** *** Methods *)

Section Methods.

Context (P : Platform).

Definition onUrlInput (value : string) (st : State) : State :=
  with_ui (set_sheetUrl value) st.

Inductive FilterType := startDate_t | endDate_t | materia_t | paralelo_t.

Definition onFilterChange (value : string) (filterType : FilterType) (st : State) : State :=
  let f := filters st in
  with_filters
    match filterType with
    | startDate_t =>
        {| startDate := value; endDate := endDate f;
           selectedMateria := selectedMateria f; selectedParalelo := selectedParalelo f |}
    | endDate_t =>
        {| startDate := startDate f; endDate := value;
           selectedMateria := selectedMateria f; selectedParalelo := selectedParalelo f |}
    | materia_t =>
        {| startDate := startDate f; endDate := endDate f;
           selectedMateria := value; selectedParalelo := selectedParalelo f |}
    | paralelo_t =>
        {| startDate := startDate f; endDate := endDate f;
           selectedMateria := selectedMateria f; selectedParalelo := value |}
    end st.

Definition reset : Summary := {| loading := false; content := None |}.

Definition resetAISummaries (st : State) : State :=
  with_summaries (write Suggestions reset)
    (with_summaries (write Questions reset)
       (with_summaries (write Confused reset)
          (with_summaries (write Learnings reset) st))).

Definition resetLessonPlan (st : State) : State :=
  with_summaries (write StudentGuide reset)
    (with_summaries (write LessonPlan reset) st).

Definition applyFilters (st : State) : State :=
  let f := filters st in
  let st1 :=
    with_applied
      {| appliedStartDate := startDate f; appliedEndDate := endDate f;
         appliedSelectedMateria := selectedMateria f;
         appliedSelectedParalelo := selectedParalelo f |} st in
  resetLessonPlan (resetAISummaries st1).

(** [loadData] up to its [await]. *)
Definition loadData_begin (st : State) : State :=
  with_ui (set_dataLoaded false)
    (with_ui (set_errorMessage None)
       (with_ui (set_isLoading true) st)).

(** [loadData] after the [await]: the [try] continuation or the [catch]
    block, then the [finally] block. *)
Definition loadData_settle (r : DataService.LoadError + list TicketData) (st : State) : State :=
  let st1 :=
    match r with
    | inr data => with_ui (set_dataLoaded true) (applyFilters (with_allData data st))
    | inl error =>
        with_allData [] (with_ui (set_errorMessage (Some (DataService.message error))) st)
    end in
  with_ui (set_isLoading false) st1.

Definition loadData (W : World) (st : State) : State :=
  loadData_settle (DataService.loadDataFromSheet P W (sheetUrl (ui st))) (loadData_begin st).

(** [callGemini] up to its [await]: the signal is set to loading and the
    request is issued. *)
Definition callGemini (userQuery systemPrompt : string) (sig : Signal) (st : State) : State :=
  with_requests
    (fun l => l ++ [ {| userQuery := userQuery; systemPrompt := systemPrompt;
                        stateSignal := sig |} ])
    (with_summaries (write sig {| loading := true; content := None |}) st).

(** [callGemini] after the [await]: [inl] is the text that [marked.parse]
    renders, [inr] the message of the error that the [catch] receives, from
    the service or from [marked.parse] (see [Frame.attempt]). *)
Definition callGemini_settle (sig : Signal) (result : string + string) (st : State) : State :=
  match result with
  | inl text =>
      with_summaries (write sig {| loading := false; content := Some (marked_parse P text) |}) st
  | inr message =>
      with_summaries
        (write sig {| loading := false;
                      content := Some ("<p class=" +:+ JS.dquote +:+ "text-red-600 font-semibold"
                                       +:+ JS.dquote +:+ ">Error: " +:+ message +:+ "</p>") |}) st
  end.

Inductive SummaryType := learnings_t | confused_t | questions_t | suggestions_t.

Definition dataIndex (type : SummaryType) : string :=
  match type with
  | learnings_t => DataService.learningIndex
  | confused_t => DataService.confusedIndex
  | questions_t => DataService.questionIndex
  | suggestions_t => DataService.suggestionIndex
  end.

Definition summaryPrompt (type : SummaryType) : string :=
  match type with
  | learnings_t => "Eres un asistente de análisis educativo. Tu tarea es leer las respuestas de los estudiantes sobre su aprendizaje más importante de la clase y generar un resumen conciso y profesional, identificando los 3 a 5 temas o ideas principales mencionados. Formatea el resultado usando Markdown con una lista numerada de los puntos clave."
  | confused_t => "Eres un asistente de análisis educativo. Tu tarea es leer las respuestas de los estudiantes sobre los puntos más confusos de la clase y generar un resumen conciso, identificando los 3 a 5 temas principales que causaron confusión. Prioriza las áreas de refuerzo más urgentes. Formatea el resultado usando Markdown con una lista numerada."
  | questions_t => "Eres un asistente educativo. Tu tarea es leer las preguntas de los estudiantes para la siguiente clase y generar un resumen conciso, agrupando las 3 a 5 preguntas o temas más solicitados para abordar al inicio de la próxima sesión. Formatea el resultado usando Markdown con una lista numerada."
  | suggestions_t => "Eres un analista de feedback. Tu tarea es leer las sugerencias de los estudiantes sobre cómo el docente puede ayudarlos a comprender mejor el tema y generar un resumen conciso de las 3 a 5 peticiones principales (ej: 'más ejemplos prácticos', 'más tiempo de laboratorio'). Formatea el resultado usando Markdown con una lista numerada."
  end.

Definition summarySignal (type : SummaryType) : Signal :=
  match type with
  | learnings_t => Learnings
  | confused_t => Confused
  | questions_t => Questions
  | suggestions_t => Suggestions
  end.

(** The callback of [.filter] in [generateSummary]:
    [text && text !== '.' && !['no', 'ninguna', 'ninguno', 'nada'].includes(text.toLowerCase())] *)
Definition meaningful (text : option string) : bool :=
  match text with
  | None => false
  | Some t =>
      JS.truthy text
      && negb (bool_decide (t = "."))
      && negb (bool_decide (JS.toLowerCase t ∈ ["no"; "ninguna"; "ninguno"; "nada"]))
  end.

(** [data.map(d => d[dataIndex]?.trim()).filter(...)] *)
Definition responses_of (key : string) (data : list TicketData) : list (option string) :=
  List.filter meaningful (map (fun d => JS.opt_trim (field d key)) data).

Definition noResponses : string :=
  "<p class=" +:+ JS.dquote +:+ "text-gray-500 font-semibold text-sm" +:+ JS.dquote
  +:+ ">Los estudiantes no proporcionaron respuestas significativas en este filtro.</p>".

Definition generateSummary (type : SummaryType) (st : State) : State :=
  let data := filteredData P st in
  match data with
  | [] => st
  | _ :: _ =>
      let responses := responses_of (dataIndex type) data in
      match responses with
      | [] =>
          with_summaries
            (write (summarySignal type) {| loading := false; content := Some noResponses |}) st
      | _ :: _ =>
          let userQuery :=
            "Contexto: Materia: " +:+ JS.or_else (Some (selectedMateria (filters st))) "Todas"
            +:+ ". Respuestas a analizar:" +:+ JS.LF +:+ JS.LF
            +:+ JS.join (JS.LF +:+ "---" +:+ JS.LF) (default "" <$> responses) in
          callGemini userQuery (summaryPrompt type) (summarySignal type) st
      end
  end.

Definition requiredFields (m : ModalForm) : list string :=
  [ modalNextTopic m; modalNumStudents m; modalClassDuration m;
    modalMateriaOutcome m; modalUnitOutcome m ].

Definition requiredMessage : string :=
  "Por favor, rellena todos los campos requeridos (*).".

Definition lessonPlanPrompt (m : ModalForm) : string :=
  "Eres un diseñador instruccional experto. Crea un plan de clase híbrido y estructurado para una clase de "
  +:+ modalClassDuration m
  +:+ " minutos. El objetivo es: 1) Reforzar los 'Puntos Confusos' y responder las 'Preguntas Pendientes' de la clase anterior, y 2) Introducir el nuevo tema: "
  +:+ JS.dquote +:+ modalNextTopic m +:+ JS.dquote
  +:+ ". El plan debe ser profesional y práctico. Estructura el resultado usando Markdown con estos 4 pasos principales, ajustando los tiempos para sumar "
  +:+ modalClassDuration m
  +:+ " minutos: ### 1. Inicio y Revisión, ### 2. Desarrollo del Nuevo Tema, ### 3. Actividad de Aplicación y Preguntas, ### 4. Cierre y Próximos Pasos.".

Definition lessonPlanQuery (st : State) (confusedText questionsText : string) : string :=
  let m := modal st in
  let nl := JS.LF +:+ "    " in
  "**Materia:** " +:+ selectedMateria (filters st)
  +:+ ". **Estudiantes:** " +:+ modalNumStudents m +:+ "."
  +:+ nl +:+ "**Nuevo Tema:** " +:+ modalNextTopic m
  +:+ nl +:+ "**Resultados de Aprendizaje:**"
  +:+ nl +:+ "- Materia: " +:+ modalMateriaOutcome m
  +:+ nl +:+ "- Unidad: " +:+ modalUnitOutcome m
  +:+ nl +:+ "- Producto de la Clase (Opcional): "
  +:+ JS.or_else (Some (modalClassProduct m)) "Ninguno"
  +:+ nl +:+ "**Feedback de Estudiantes a Abordar:**"
  +:+ nl +:+ "1. Puntos Confusos: " +:+ confusedText
  +:+ nl +:+ "2. Preguntas Pendientes: " +:+ questionsText
  +:+ nl +:+ "**Instrucción Final:** Genera un plan de clase detallado en 4 pasos.".

Definition generateLessonPlan (st : State) : State :=
  let st1 := with_modal (set_modalErrorMessage None) st in
  let confusedText :=
    JS.or_else (content (confused (summaries st1)))
      "No hay puntos confusos destacados por la IA (Genera el resumen de confusión si es necesario)" in
  let questionsText :=
    JS.or_else (content (questions (summaries st1)))
      "No hay preguntas pendientes destacadas por la IA (Genera el resumen de preguntas si es necesario)" in
  if existsb JS.not_ (requiredFields (modal st1)) then
    with_modal (set_modalErrorMessage (Some requiredMessage)) st1
  else
    let st2 := with_toggles (set_isModalVisible false) st1 in
    callGemini (lessonPlanQuery st2 confusedText questionsText)
      (lessonPlanPrompt (modal st2)) LessonPlan st2.

Definition studentGuidePrompt : string :=
  "Eres un coach de estudio. Tu tarea es tomar un Plan de Clase y transformarlo en una Guía de Estudio y Refuerzo concisa y motivadora para los estudiantes. El tono debe ser alentador, directo y orientado a la acción. Estructura el resultado usando Markdown con 3 secciones principales: ### 1. Nuestro Objetivo de Refuerzo, ### 2. Pasos Clave de Refuerzo, ### 3. Checklist de Preparación.".

Definition generateStudentGuide (st : State) : State :=
  let plan := content (lessonPlan (summaries st)) in
  if negb (JS.truthy plan) || loading (lessonPlan (summaries st)) then st
  else
    callGemini
      ("**Materia:** " +:+ selectedMateria (filters st)
       +:+ ". **Plan de Clase a transformar:**" +:+ JS.LF +:+ JS.LF
       +:+ default "" plan +:+ JS.LF +:+ JS.LF
       +:+ "**Instrucción Final:** Genera la Guía de Estudio para un estudiante basada en el plan de clase proporcionado.")
      studentGuidePrompt StudentGuide st.

End Methods.

End AppComponent.

(** ** Sample data *)

Module Samples.

Import AppComponent.

(** A platform that does nothing: every date is invalid, text is left as
    it is, a number is printed digit by digit. *)
Definition plain : Platform :=
  {| Date_parse := fun _ => None;
     setHours_end_of_day := fun t => t;
     toLocaleDateString := fun _ => "";
     toUpperCase := fun s => s;
     marked_parse := fun s => s;
     Number_toString := fun n => pretty n |}.

Definition high : string := "¡Entendido! - Lo domino y podría explicarlo.".
Definition medium : string := "Más o menos. - Entendí la idea general, pero tengo dudas.".
Definition low : string := "No entendí casi nada. - Me siento bastante perdido/a.".

(** A record with the given score, comprehension answer and answer to the
    learning question. *)
Definition ticket (score comprehension learning : string) : TicketData :=
  {| Timestamp := Some 1700000000000;
     answers :=
       {[ "Email Address" := "ana.perez@example.org";
          "Materia" := "Fisica";
          "Paralelo" := "A";
          DataService.scoreIndex := score;
          DataService.comprehensionIndex := comprehension;
          DataService.learningIndex := learning ]} |}.

(** The component after [rows] have been loaded, nothing else touched. *)
Definition loaded (rows : list TicketData) : State := with_allData rows initial.

Definition scored (scores : list string) : State :=
  loaded (map (fun s => ticket s high "ok") scores).

Definition answered (comprehension : list string) : State :=
  loaded (map (fun c => ticket "8" c "ok") comprehension).

Definition learned (learning : list string) : State :=
  loaded (map (fun l => ticket "8" high l) learning).

(** A complete first row, and the same row without the [Paralelo] column. *)
Definition full_row : gmap string string :=
  list_to_map (map (fun h => (h, "x")) DataService.requiredHeaders).

Definition short_row : gmap string string := delete "Paralelo" full_row.

Definition sheet : string := "https://docs.google.com/spreadsheets/d/1AbC-_x9/edit#gid=42".

(** A world where every fetch succeeds and the CSV has the one row [row]. *)
Definition world (row : gmap string string) : World :=
  {| http_get := fun _ => inl "csv";
     Papa_parse := fun _ => PapaComplete {| errors := []; data := [row] |} |}.

Definition at_url (url : string) (st : State) : State := onUrlInput url st.

(** The component with each of the five mandatory inputs holding [text]. *)
Definition filled (text : string) : State :=
  with_modal
    (fun m => {| modalNextTopic := text; modalNumStudents := text;
                 modalClassDuration := text; modalMateriaOutcome := text;
                 modalUnitOutcome := text; modalClassProduct := modalClassProduct m;
                 modalErrorMessage := modalErrorMessage m |}) initial.

End Samples.

(** ** Conditions used in the statements *)

Module Conditions.

Import AppComponent.

(** An answer that carries no response: missing, blank once trimmed, a bare
    period, or one of the four words in any letter case. *)
Definition non_answer (v : option string) : Prop :=
  match v with
  | None => True
  | Some s =>
      JS.trim s = ""
      \/ JS.trim s = "."
      \/ JS.toLowerCase (JS.trim s) ∈ ["no"; "ninguna"; "ninguno"; "nada"]
  end.

(** The score of [d] parses as an integer that is at most 7. *)
Definition low_score (d : TicketData) : Prop :=
  exists n, JS.parseInt (field d DataService.scoreIndex) = Some n /\ n <= 7.

(** The comprehension answer of [d] maps to the lowest weight. *)
Definition lowest_comprehension (d : TicketData) : Prop :=
  weight (JS.opt_trim (field d DataService.comprehensionIndex)) = Some 1.

(** The comprehension answer of [d], trimmed, names a property that object
    literals inherit. *)
Definition names_inherited (d : TicketData) : Prop :=
  exists k, JS.opt_trim (field d DataService.comprehensionIndex) = Some k
            /\ k ∈ JS.Object_prototype.

(** [scores] are the score fields of [rows] that parse as an integer from 1
    to 10: one per such record, in the order of the records. *)
Inductive kept_scores : list TicketData -> list Z -> Prop :=
  | kept_scores_nil : kept_scores [] []
  | kept_scores_in d rows s scores :
      JS.parseInt (field d DataService.scoreIndex) = Some s ->
      1 <= s <= 10 ->
      kept_scores rows scores ->
      kept_scores (d :: rows) (s :: scores)
  | kept_scores_out d rows scores :
      ~ (exists s, JS.parseInt (field d DataService.scoreIndex) = Some s /\ 1 <= s <= 10) ->
      kept_scores rows scores ->
      kept_scores (d :: rows) scores.

(** [ws] are the weights of the answers of [rows] that are one of the three
    mapped answers: one per such record, in the order of the records. *)
Inductive kept_weights : list TicketData -> list Z -> Prop :=
  | kept_weights_nil : kept_weights [] []
  | kept_weights_in d rows w ws :
      weight (JS.opt_trim (field d DataService.comprehensionIndex)) = Some w ->
      kept_weights rows ws ->
      kept_weights (d :: rows) (w :: ws)
  | kept_weights_out d rows ws :
      weight (JS.opt_trim (field d DataService.comprehensionIndex)) = None ->
      kept_weights rows ws ->
      kept_weights (d :: rows) ws.

(** The sum of a list of numbers. *)
Definition total (l : list Z) : Z := foldr Z.add 0 l.

(** Why an import of [url] is rejected with [e]: the URL is given but has no
    [/d/<id>] part, or the CSV was fetched and parsed without error and its
    first row lacks a required header. *)
Inductive rejected (W : World) (url : string) : DataService.LoadError -> Prop :=
  | rejected_url :
      url <> "" ->
      DataService.match_sheet_id url = None ->
      rejected W url DataService.InvalidUrl
  | rejected_schema sheetId csvData results row0 rows header :
      DataService.match_sheet_id url = Some sheetId ->
      http_get W (DataService.csvUrl sheetId (default "0" (DataService.match_gid url)))
        = inl csvData ->
      Papa_parse W csvData = PapaComplete results ->
      errors results = [] ->
      data results = row0 :: rows ->
      header ∈ DataService.requiredHeaders ->
      row0 !! header = None ->
      rejected W url DataService.SchemaMismatch.

(** The component after a load that was rejected with [e]: the message is
    shown and the record set is empty; nothing else differs from [st]. *)
Definition after_failed_load (e : DataService.LoadError) (st : State) : State :=
  with_allData []
    (with_ui (fun u => {| sheetUrl := sheetUrl u; isLoading := false;
                          errorMessage := Some (DataService.message e);
                          dataLoaded := false |}) st).

End Conditions.

(** ** More of the component and of its services *)

Module GeminiService.
(** [generateContent]: [response.text], which is [undefined] ([None]) when
    the response carries no text, or the error thrown when the call fails,
    whose message wraps the text of the original error. *)
Definition generateContent (response : option string + string) : option string + string :=
  match response with
  | inl text => inl text
  | inr error => inr ("Failed to generate content: " +:+ error)
  end.
End GeminiService.

(** [openModal] and [closeModal] of the component *)
Module Dialog.

Import AppComponent.

Definition openModal (st : State) : State := with_toggles (set_isModalVisible true) st.
Definition closeModal (st : State) : State := with_toggles (set_isModalVisible false) st.
End Dialog.

(** [filterOptions]: the choices offered for the two category filters *)
Module Options.

Import AppComponent.

Record FilterOptions := {
  materias : list (option string);
  paralelos : list (option string)
}.

(** [[...new Set(values)]]: the values in order of first occurrence. *)
Fixpoint distinct_from (seen : list (option string)) (values : list (option string))
  : list (option string) :=
  match values with
  | [] => []
  | x :: rest =>
      if bool_decide (x ∈ seen) then distinct_from seen rest
      else x :: distinct_from (x :: seen) rest
  end.

Definition distinct (values : list (option string)) : list (option string) :=
  distinct_from [] values.

(** The place of a UTF-8 byte in the order of UTF-16 code units: the lead
    bytes [EE] and [EF] (U+E000 to U+FFFF) come after the lead bytes [F0] and
    above (surrogate pairs). *)
Definition rank (c : ascii) : N :=
  let n := N_of_ascii c in
  if (n <? 238)%N then n else if (n <? 240)%N then (n + 16)%N else (n - 2)%N.

(** [s <= t] as JavaScript compares strings, by code units. *)
Fixpoint code_unit_leb (s t : string) : bool :=
  match s, t with
  | EmptyString, _ => true
  | String _ _, EmptyString => false
  | String a s', String b t' =>
      if Ascii.eqb a b then code_unit_leb s' t' else (rank a <? rank b)%N
  end.

(** The default comparison of [Array.prototype.sort]: [undefined] last. *)
Definition sort_leb (x y : option string) : bool :=
  match x, y with
  | _, None => true
  | None, Some _ => false
  | Some s, Some t => code_unit_leb s t
  end.

Fixpoint insert_sorted (x : option string) (l : list (option string)) : list (option string) :=
  match l with
  | [] => [x]
  | y :: l' => if sort_leb x y then x :: y :: l' else y :: insert_sorted x l'
  end.

(** [values.sort()] on distinct values: the order is total, so the sorted
    array does not depend on the algorithm. *)
Fixpoint sort (l : list (option string)) : list (option string) :=
  match l with
  | [] => []
  | x :: l' => insert_sorted x (sort l')
  end.

Definition filterOptions (st : State) : FilterOptions :=
  {| materias := sort (distinct (map Materia (allData st)));
     paralelos := sort (distinct (map Paralelo (allData st))) |}.

End Options.

(** The grouped counts of [renderCharts] *)
Module Charts.

Import AppComponent.

(** A category of a chart: [undefined], a text, or a value that the labels
    object inherits. *)
Abbreviation Category := (option (JS.Property string)).

(** [Array.from(d3.rollup(data, v => v.length, keyOf))] on the keys of the
    records: one entry per distinct key, in order of first occurrence, with
    the number of records that have the key.  Keys are the same as in a
    [Map]: texts with the same content, or the same inherited value, and
    the inherited names all have different values. *)
Fixpoint bump (k : Category) (groups : list (Category * nat))
  : list (Category * nat) :=
  match groups with
  | [] => [(k, 1%nat)]
  | (k', n) :: rest =>
      if bool_decide (k = k') then (k', S n) :: rest else (k', n) :: bump k rest
  end.

Definition rollup_length (keys : list (Category)) : list (Category * nat) :=
  foldl (fun groups k => bump k groups) [] keys.

(** [labels[d[key]?.trim()] || d[key]?.trim()]: the label when the read
    gives a truthy value, else the trimmed answer. *)
Definition category (key : string) (labels : gmap string string) (d : TicketData)
  : Category :=
  let text := JS.opt_trim (field d key) in
  match JS.get labels text with
  | Some (JS.Own EmptyString) => JS.Own <$> text
  | Some label => Some label
  | None => JS.Own <$> text
  end.

(** [d.category] as a condition: a text that is not empty, a function or an
    object. *)
Definition shown (c : Category) : bool :=
  match c with
  | Some (JS.Own (String _ _)) => true
  | Some (JS.Inherited _) => true
  | _ => false
  end.

Definition groupData (rows : list TicketData) (key : string) (labels : gmap string string)
  : list (Category * nat) :=
  List.filter (fun g => shown (fst g)) (rollup_length (map (category key labels) rows)).

Definition comprehensionLabels : gmap string string :=
  {[ "¡Entendido! - Lo domino y podría explicarlo." := "¡Dominado!";
     "Más o menos. - Entendí la idea general, pero tengo dudas." := "Dudas/Idea General";
     "No entendí casi nada. - Me siento bastante perdido/a." := "Perdido/a" ]}.

Definition engagementLabels : gmap string string :=
  {[ "Muy Comprometido/a: Me esforcé al máximo." := "Máximo Esfuerzo";
     "Comprometido/a: Sé que podría haberme esforzado un poco más." := "Podría Esforzarme Más";
     "Poco Comprometido/a: Podría haberme esforzado mucho más." := "Esfuerzo Bajo" ]}.

(** The data of the two pie charts in [renderCharts]. *)
Definition comprehensionData (rows : list TicketData) : list (Category * nat) :=
  groupData rows DataService.comprehensionIndex comprehensionLabels.

Definition engagementData (rows : list TicketData) : list (Category * nat) :=
  groupData rows DataService.engagementIndex engagementLabels.

(** The number of [keys] equal to [k]. *)
Definition occurrences (k : Category) (keys : list (Category)) : nat :=
  length (List.filter (fun k' => bool_decide (k' = k)) keys).


(** The count recorded for [k] in [groups], 0 when there is no entry. *)
Fixpoint recorded (k : Category) (groups : list (Category * nat)) : nat :=
  match groups with
  | [] => 0
  | (k', n) :: rest => if bool_decide (k = k') then n else recorded k rest
  end.

(** The records counted under a non-empty category. *)
Definition counted (groups : list (Category * nat)) : nat :=
  list_sum (map snd (List.filter (fun g => shown (fst g)) groups)).

End Charts.

(** ** More conditions used in the statements *)

(** The four tests of [filteredData], one by one. *)
Module Matching.

Import AppComponent.

(** No start date is set, or the record's time is at or after it. *)
Definition passes_start (P : Platform) (start : string) (d : TicketData) : Prop :=
  start = "" \/ exists t t0, Timestamp d = Some t /\ Date_parse P start = Some t0 /\ t0 <= t.

(** No end date is set, or the record's time is at or before the end of
    that day. *)
Definition passes_end (P : Platform) (end_ : string) (d : TicketData) : Prop :=
  end_ = ""
  \/ exists t t1, Timestamp d = Some t /\ Date_parse P end_ = Some t1
                  /\ t <= setHours_end_of_day P t1.

(** No category is set, or it is the record's. *)
Definition passes_materia (materia : string) (d : TicketData) : Prop :=
  materia = "" \/ Materia d = Some materia.

(** No subgroup is set, or it is the record's. *)
Definition passes_paralelo (paralelo : string) (d : TicketData) : Prop :=
  paralelo = "" \/ Paralelo d = Some paralelo.
End Matching.

Module Text.

(** Every character of [s] is in the class. *)
Fixpoint all_chars (p : ascii -> bool) (s : string) : bool :=
  match s with
  | EmptyString => true
  | String c s' => p c && all_chars p s'
  end.

(** [s] is empty or starts with a character that is not in the class. *)
Definition stops (p : ascii -> bool) (s : string) : Prop :=
  match s with
  | EmptyString => True
  | String c _ => p c = false
  end.
End Text.

Module Frame.

Import AppComponent.

(** Everything of the component except the six summary signals and the
    issued requests. *)
Definition same_outside_reports (st st' : State) : Prop :=
  ui st' = ui st /\ filters st' = filters st /\ applied st' = applied st
  /\ allData st' = allData st /\ toggles st' = toggles st /\ modal st' = modal st.

(** What the [try] block of [callGemini] hands on from the awaited result:
    the text that [marked.parse] renders, or the message of the error that is
    caught.  That error is the one of the service or, when the text is
    [undefined], the one [marked.parse] throws, whose message [marked_error]
    is the library's. *)
Definition attempt (marked_error : string) (result : option string + string)
  : string + string :=
  match result with
  | inl (Some text) => inl text
  | inl None => inr marked_error
  | inr message => inr message
  end.

(** The content [callGemini] stores when the error caught has [message]. *)
Definition errorContent (message : string) : string :=
  "<p class=" +:+ JS.dquote +:+ "text-red-600 font-semibold" +:+ JS.dquote
  +:+ ">Error: " +:+ message +:+ "</p>".

(** The answers to [key], trimmed, that [generateSummary] sends. *)
Definition sent (key : string) (rows : list TicketData) : list string :=
  List.filter (fun t => meaningful (Some t))
    (omap (fun d => JS.trim <$> field d key) rows).
End Frame.

Module Plan.

Import AppComponent.

(** None of the five mandatory inputs is empty. *)
Definition complete (m : ModalForm) : Prop :=
  modalNextTopic m <> "" /\ modalNumStudents m <> "" /\ modalClassDuration m <> ""
  /\ modalMateriaOutcome m <> "" /\ modalUnitOutcome m <> "".
End Plan.

Module Records.

Import AppComponent.

(** The record has a category label that is not empty. *)
Definition has_materia (d : TicketData) : Prop :=
  exists m, Materia d = Some m /\ m <> "".

End Records.

(** ** Properties *)

Import AppComponent.

(** *** JavaScript strings *)

Lemma strip_prefix_length (p s r : string) :
  JS.strip_prefix p s = Some r ->
  String.length s = (String.length p + String.length r)%nat.
Proof.
  revert s. induction p as [|a p IH]; intros s; simpl.
  - intros [= ->]. reflexivity.
  - destruct s as [|b s]; [discriminate|].
    destruct (Ascii.eqb a b); [|discriminate].
    intros H. simpl. rewrite (IH _ H). reflexivity.
Qed.

Lemma strip_any_shorter (ps : list string) (s r : string) :
  Forall (fun p => p <> "") ps ->
  JS.strip_any ps s = Some r ->
  (String.length r < String.length s)%nat.
Proof.
  induction 1 as [|p ps Hp _ IH]; simpl; [discriminate|].
  destruct (JS.strip_prefix p s) as [r'|] eqn:E; [|exact IH].
  intros [= ->]. apply strip_prefix_length in E.
  destruct p; [contradiction|]. simpl in E. lia.
Qed.

Lemma strip_all_done (ps : list string) (fuel : nat) (s : string) :
  Forall (fun p => p <> "") ps ->
  (String.length s <= fuel)%nat ->
  JS.strip_any ps (JS.strip_all fuel ps s) = None.
Proof.
  intros Hps. revert s. induction fuel as [|fuel IH]; intros s Hlen; simpl.
  - destruct (JS.strip_any ps s) as [r|] eqn:E; [|reflexivity].
    apply (strip_any_shorter _ _ _ Hps) in E. lia.
  - destruct (JS.strip_any ps s) as [r|] eqn:E; [|exact E].
    apply IH. apply (strip_any_shorter _ _ _ Hps) in E. lia.
Qed.

Lemma trimStart_done (s : string) :
  JS.strip_any JS.StrWhiteSpaceChar (JS.trimStart s) = None.
Proof.
  apply strip_all_done; [|reflexivity].
  unfold JS.StrWhiteSpaceChar. repeat constructor; discriminate.
Qed.

Lemma rev_app_length (s1 s2 : string) :
  String.length (String.rev_app s1 s2) = (String.length s1 + String.length s2)%nat.
Proof.
  revert s2. induction s1 as [|a s1 IH]; intros s2; simpl.
  - reflexivity.
  - rewrite IH. simpl. lia.
Qed.

Lemma rev_app_rev_app (s1 s2 s3 : string) :
  String.rev_app (String.rev_app s1 s2) s3 = String.rev_app s2 (s1 +:+ s3).
Proof.
  revert s2 s3. induction s1 as [|a s1 IH]; intros s2 s3.
  - reflexivity.
  - change (String.rev_app (String.rev_app s1 (String a s2)) s3
            = String.rev_app (String a s2) (s1 +:+ s3)).
    apply IH.
Qed.

Lemma append_empty_r (s : string) : s +:+ "" = s.
Proof.
  induction s as [|a s IH]; [reflexivity|].
  change (String a (s +:+ "") = String a s). f_equal. exact IH.
Qed.

Lemma rev_rev (s : string) : String.rev (String.rev s) = s.
Proof. unfold String.rev. rewrite rev_app_rev_app. apply append_empty_r. Qed.

(** [trimEnd] scans the reversed bytes with the same fuel. *)
Lemma trimEnd_done (s : string) :
  JS.strip_any (map String.rev JS.StrWhiteSpaceChar) (String.rev (JS.trimEnd s)) = None.
Proof.
  unfold JS.trimEnd. rewrite rev_rev.
  apply strip_all_done.
  - unfold JS.StrWhiteSpaceChar. repeat constructor; discriminate.
  - unfold String.rev. rewrite rev_app_length. simpl. lia.
Qed.

Example trim_examples :
  JS.trim "  No  " = "No"
  /\ JS.trim (JS.bytes [194%N; 160%N; 46%N; 9%N; 10%N]) = "."
  /\ JS.trim " " = "".
Proof. repeat split; vm_compute; reflexivity. Qed.

Example parseInt_examples :
  JS.parseInt (Some " 7") = Some 7
  /\ JS.parseInt (Some "7.9") = Some 7
  /\ JS.parseInt (Some "10 puntos") = Some 10
  /\ JS.parseInt (Some "-3") = Some (-3)
  /\ JS.parseInt (Some "0x1F") = Some 31
  /\ JS.parseInt (Some "siete") = None
  /\ JS.parseInt (Some "") = None
  /\ JS.parseInt None = None.
Proof. repeat split; vm_compute; reflexivity. Qed.

(** *** Filter engine *)

Lemma filter_all (A : Type) (f : A -> bool) (l : list A) :
  (forall x, f x = true) -> List.filter f l = l.
Proof.
  intros Hf. induction l as [|x l IH]; simpl.
  - reflexivity.
  - rewrite Hf, IH. reflexivity.
Qed.

Lemma row_matches_unset P row : row_matches P "" "" "" "" row = true.
Proof. reflexivity. Qed.

(** C1. For a non-empty list of loaded records, filtering with an applied
    selection whose start date, end date, category and subgroup are all
    unset returns the list of records itself: same records, same order. *)
Theorem C1_filter_identity (P : Platform) (st : State) :
  allData st <> [] ->
  appliedStartDate (applied st) = "" ->
  appliedEndDate (applied st) = "" ->
  appliedSelectedMateria (applied st) = "" ->
  appliedSelectedParalelo (applied st) = "" ->
  filteredData P st = allData st.
Proof.
  intros _ Hs He Hm Hp. unfold filteredData.
  rewrite Hs, He, Hm, Hp.
  destruct (allData st) as [|row rows] eqn:E; [reflexivity|].
  apply filter_all. intros x. apply row_matches_unset.
Qed.

Lemma C1_filter_identity_witness :
  filteredData Samples.plain (Samples.scored ["7"; "3"])
  = allData (Samples.scored ["7"; "3"]).
Proof.
  apply (C1_filter_identity Samples.plain (Samples.scored ["7"; "3"]));
    [discriminate | reflexivity | reflexivity | reflexivity | reflexivity].
Defined.

(** *** Report states *)

(** C7. Whatever the six report states were, after [applyFilters] the four
    insight summaries, the lesson plan and the student guide are all in the
    not-requested state: no content, not loading. *)
Theorem C7_applyFilters_resets (st : State) (sig : Signal) :
  read sig (summaries (applyFilters st)) = {| loading := false; content := None |}.
Proof. destruct sig; reflexivity. Qed.

(** C9. When the filtered record set is empty, [generateSummary] returns
    the state it was given, for each of the four kinds: no report state
    changes and no request is issued. *)
Theorem C9_generateSummary_empty (P : Platform) (type : SummaryType) (st : State) :
  filteredData P st = [] ->
  generateSummary P type st = st.
Proof. intros H. unfold generateSummary. rewrite H. reflexivity. Qed.

Lemma C9_generateSummary_empty_witness :
  generateSummary Samples.plain confused_t initial = initial.
Proof.
  apply (C9_generateSummary_empty Samples.plain confused_t initial). reflexivity.
Defined.

(** C8, as stated, fails for inputs that are blank without being empty:
    with each of the five mandatory inputs holding two spaces, the check
    passes, a request is issued, no validation message is set and the plan
    goes from not requested to loading. *)
Lemma C8_counterexample :
  Forall (fun text => JS.trim text = "") (requiredFields (modal (Samples.filled "  ")))
  /\ length (requests (Samples.filled "  ")) = 0%nat
  /\ length (requests (generateLessonPlan (Samples.filled "  "))) = 1%nat
  /\ modalErrorMessage (modal (generateLessonPlan (Samples.filled "  "))) = None
  /\ lessonPlan (summaries (Samples.filled "  ")) = {| loading := false; content := None |}
  /\ lessonPlan (summaries (generateLessonPlan (Samples.filled "  ")))
     = {| loading := true; content := None |}.
Proof.
  split; [repeat constructor|]. repeat split.
Qed.

(** C8, amended. When one of the five mandatory inputs of the session plan
    (next topic, number of students, class duration, subject outcome, unit
    outcome) is empty, [generateLessonPlan] only sets the validation message,
    the same fixed text whichever input is missing: no request is issued to
    the generation service and no report state, the plan's included,
    changes. *)
Theorem C8_lessonPlan_validation (st : State) :
  modalNextTopic (modal st) = ""
  \/ modalNumStudents (modal st) = ""
  \/ modalClassDuration (modal st) = ""
  \/ modalMateriaOutcome (modal st) = ""
  \/ modalUnitOutcome (modal st) = "" ->
  generateLessonPlan st = with_modal (set_modalErrorMessage (Some requiredMessage)) st
  /\ modalErrorMessage (modal (generateLessonPlan st)) = Some requiredMessage
  /\ requests (generateLessonPlan st) = requests st
  /\ lessonPlan (summaries (generateLessonPlan st)) = lessonPlan (summaries st)
  /\ summaries (generateLessonPlan st) = summaries st.
Proof.
  intros H.
  assert (E : generateLessonPlan st
              = with_modal (set_modalErrorMessage (Some requiredMessage)) st).
  { unfold generateLessonPlan, requiredFields. simpl.
    destruct H as [H|[H|[H|[H|H]]]]; rewrite H; simpl;
      rewrite ?orb_true_r; reflexivity. }
  rewrite E. repeat split; reflexivity.
Qed.

Lemma C8_lessonPlan_validation_witness :
  requests (generateLessonPlan initial) = requests initial.
Proof.
  apply (C8_lessonPlan_validation initial). left. reflexivity.
Defined.

(** *** Insight reports without responses *)

Lemma meaningful_non_answer (v : option string) :
  Conditions.non_answer v -> meaningful (JS.opt_trim v) = false.
Proof.
  destruct v as [s|]; simpl; [|reflexivity].
  intros [H|[H|H]].
  - rewrite H. reflexivity.
  - rewrite H. reflexivity.
  - rewrite (bool_decide_eq_true_2 _ H). simpl.
    rewrite andb_false_r. reflexivity.
Qed.

Lemma responses_of_non_answers (key : string) (rows : list TicketData) :
  Forall (fun d => Conditions.non_answer (field d key)) rows ->
  responses_of key rows = [].
Proof.
  unfold responses_of. induction 1 as [|d rows Hd _ IH]; simpl.
  - reflexivity.
  - rewrite (meaningful_non_answer _ Hd). exact IH.
Qed.

Lemma non_answer_meaningful (v : option string) :
  meaningful (JS.opt_trim v) = false -> Conditions.non_answer v.
Proof.
  destruct v as [s|]; simpl; [|trivial].
  destruct (JS.trim s) as [|c r] eqn:E; [left; reflexivity|].
  simpl. intros H.
  destruct (decide (String c r = ".")) as [Hdot|Hdot]; [right; left; exact Hdot|].
  rewrite (bool_decide_eq_false_2 _ Hdot) in H. simpl in H.
  apply negb_false_iff, bool_decide_eq_true_1 in H.
  right. right. exact H.
Qed.

Lemma non_answers_of_responses (key : string) (rows : list TicketData) :
  responses_of key rows = [] ->
  Forall (fun d => Conditions.non_answer (field d key)) rows.
Proof.
  unfold responses_of. induction rows as [|d rows IH]; simpl; intros H.
  - constructor.
  - destruct (meaningful (JS.opt_trim (field d key))) eqn:E; [discriminate|].
    constructor; [apply non_answer_meaningful; exact E | apply IH; exact H].
Qed.

(** C6, as stated, fails when no record passes the filter: every answer of
    the (empty) filtered set is dropped, and [generateSummary] leaves the
    report as it was instead of setting the fixed content. *)
Lemma C6_counterexample :
  Forall (fun d => Conditions.non_answer (field d (dataIndex learnings_t)))
    (filteredData Samples.plain initial)
  /\ content (read (summarySignal learnings_t)
                (summaries (generateSummary Samples.plain learnings_t initial)))
     <> Some noResponses.
Proof. split; [constructor | discriminate]. Qed.

(** C6, amended. For each insight report kind, when the filtered record set
    is not empty and every answer to the kind's question is dropped (it is
    missing, blank, a bare period, or one of [no], [ninguna], [ninguno],
    [nada] in any letter case), [generateSummary] sets that report to the
    fixed content, not loading, and issues no request to the generation
    service; nothing else in the component changes. *)
Theorem C6_no_meaningful_responses (P : Platform) (type : SummaryType) (st : State) :
  filteredData P st <> [] ->
  Forall (fun d => Conditions.non_answer (field d (dataIndex type))) (filteredData P st) ->
  generateSummary P type st
  = with_summaries
      (write (summarySignal type) {| loading := false; content := Some noResponses |}) st
  /\ read (summarySignal type) (summaries (generateSummary P type st))
     = {| loading := false; content := Some noResponses |}
  /\ requests (generateSummary P type st) = requests st.
Proof.
  intros Hne Hall.
  assert (E : generateSummary P type st
              = with_summaries
                  (write (summarySignal type)
                     {| loading := false; content := Some noResponses |}) st).
  { unfold generateSummary.
    rewrite (responses_of_non_answers _ _ Hall).
    destruct (filteredData P st); [contradiction | reflexivity]. }
  rewrite E. split; [reflexivity|]. split; [|reflexivity].
  destruct type; reflexivity.
Qed.

(** The responses [no], [.], [Nada]: the report settles to the fixed
    content and the list of requests stays empty. *)
Lemma C6_no_meaningful_responses_witness :
  read Learnings
    (summaries (generateSummary Samples.plain learnings_t
                  (Samples.learned ["no"; "."; "Nada"])))
  = {| loading := false; content := Some noResponses |}
  /\ requests (generateSummary Samples.plain learnings_t
                 (Samples.learned ["no"; "."; "Nada"])) = [].
Proof.
  destruct (C6_no_meaningful_responses Samples.plain learnings_t
              (Samples.learned ["no"; "."; "Nada"])) as (_ & Hc & Hr).
  - vm_compute. discriminate.
  - apply non_answers_of_responses. vm_compute. reflexivity.
  - split; [exact Hc | exact Hr].
Defined.

(** *** Failed imports *)

Lemma match_sheet_id_nonempty (url sheetId : string) :
  DataService.match_sheet_id url = Some sheetId -> JS.truthy (Some url) = true.
Proof. destruct url; [discriminate | reflexivity]. Qed.

Lemma missing_header (row : gmap string string) (header : string) :
  header ∈ DataService.requiredHeaders ->
  row !! header = None ->
  DataService.hasAllRequired row = false.
Proof.
  intros Hin Hnone.
  destruct (DataService.hasAllRequired row) eqn:E; [|reflexivity].
  unfold DataService.hasAllRequired in E.
  rewrite forallb_forall in E.
  apply list_elem_of_In in Hin. specialize (E _ Hin).
  unfold DataService.has_header in E.
  apply bool_decide_eq_true_1 in E. rewrite Hnone in E.
  destruct E as [x Hx]. discriminate.
Qed.

Lemma rejected_sound (P : Platform) (W : World) (url : string) (e : DataService.LoadError) :
  Conditions.rejected W url e -> DataService.loadDataFromSheet P W url = inl e.
Proof.
  intros H. unfold DataService.loadDataFromSheet.
  destruct H as [Hurl Hm | sheetId csvData results row0 rows header Hm Hget Hp He Hd Hin Hrow].
  - destruct url; [contradiction|]. simpl JS.truthy. simpl negb. cbv iota.
    rewrite Hm. reflexivity.
  - rewrite (match_sheet_id_nonempty _ _ Hm). simpl negb. cbv iota.
    rewrite Hm, Hget, Hp. unfold DataService.on_parsed.
    rewrite He, Hd, (missing_header _ _ Hin Hrow). reflexivity.
Qed.

(** C2, as stated, fails: with one record loaded, an import from a URL with
    no [/d/<id>] part is rejected with [InvalidUrl], and an import whose
    first row lacks the [Paralelo] header is rejected with [SchemaMismatch];
    after either, the record set is empty, not the one that was loaded. *)
Lemma C2_counterexample :
  let st := Samples.at_url "https://example.org/hoja" (Samples.scored ["7"]) in
  let st' := Samples.at_url Samples.sheet (Samples.scored ["7"]) in
  DataService.loadDataFromSheet Samples.plain (Samples.world Samples.full_row)
    (sheetUrl (ui st)) = inl DataService.InvalidUrl
  /\ allData (loadData Samples.plain (Samples.world Samples.full_row) st) <> allData st
  /\ DataService.loadDataFromSheet Samples.plain (Samples.world Samples.short_row)
       (sheetUrl (ui st')) = inl DataService.SchemaMismatch
  /\ allData (loadData Samples.plain (Samples.world Samples.short_row) st') <> allData st'.
Proof.
  cbv zeta. split; [|split; [|split]].
  - vm_compute. reflexivity.
  - vm_compute. discriminate.
  - vm_compute. reflexivity.
  - vm_compute. discriminate.
Qed.

(** C2, amended. Whatever records were loaded, an import that fails with
    [InvalidUrl] (the URL has no [/d/<id>] part) or with [SchemaMismatch] (a
    required header is missing from the first row of the CSV) is rejected
    with that error, and [loadData] then shows the error's message, clears
    the loading and loaded flags and replaces the record set by the empty
    one; the pending and applied filters, the six reports, the form and the
    issued requests stay as they were. *)
Theorem C2_failed_import (P : Platform) (W : World) (st : State)
    (e : DataService.LoadError) :
  Conditions.rejected W (sheetUrl (ui st)) e ->
  DataService.loadDataFromSheet P W (sheetUrl (ui st)) = inl e
  /\ loadData P W st = Conditions.after_failed_load e st
  /\ allData (loadData P W st) = []
  /\ errorMessage (ui (loadData P W st)) = Some (DataService.message e).
Proof.
  intros H. pose proof (rejected_sound P W _ _ H) as E.
  split; [exact E|].
  assert (L : loadData P W st = Conditions.after_failed_load e st).
  { unfold loadData. rewrite E. reflexivity. }
  rewrite L. repeat split; reflexivity.
Qed.

Lemma C2_failed_import_witness :
  allData (loadData Samples.plain (Samples.world Samples.short_row)
             (Samples.at_url Samples.sheet (Samples.scored ["7"]))) = []
  /\ errorMessage (ui (loadData Samples.plain (Samples.world Samples.short_row)
                         (Samples.at_url Samples.sheet (Samples.scored ["7"]))))
     = Some (DataService.message DataService.SchemaMismatch).
Proof.
  destruct (C2_failed_import Samples.plain (Samples.world Samples.short_row)
              (Samples.at_url Samples.sheet (Samples.scored ["7"]))
              DataService.SchemaMismatch) as (_ & _ & Hd & Hm).
  - apply (Conditions.rejected_schema _ _ "1AbC-_x9" "csv"
             {| errors := []; data := [Samples.short_row] |}
             Samples.short_row [] "Paralelo").
    + vm_compute. reflexivity.
    + vm_compute. reflexivity.
    + reflexivity.
    + reflexivity.
    + reflexivity.
    + apply (bool_decide_unpack _). vm_compute. exact I.
    + vm_compute. reflexivity.
  - split; [exact Hd | exact Hm].
Defined.

(** *** Priority list *)

Lemma weight_lowest (key : option string) :
  weight key = Some 1 <-> key = Some comprehensionPriorityValue.
Proof.
  destruct key as [k|]; simpl; [|split; discriminate].
  unfold comprehensionMap, comprehensionPriorityValue.
  split.
  - intros H.
    destruct (decide (k = "¡Entendido! - Lo domino y podría explicarlo.")) as [->|N1].
    { rewrite lookup_insert_eq in H. discriminate. }
    rewrite lookup_insert_ne in H by congruence.
    destruct (decide (k = "Más o menos. - Entendí la idea general, pero tengo dudas."))
      as [->|N2].
    { rewrite lookup_insert_eq in H. discriminate. }
    rewrite lookup_insert_ne in H by congruence.
    apply lookup_singleton_Some in H. destruct H as [-> _]. reflexivity.
  - intros [= ->]. vm_compute. reflexivity.
Qed.

Lemma lowComprehension_spec (d : TicketData) :
  lowComprehension d = true <-> Conditions.lowest_comprehension d.
Proof.
  unfold lowComprehension, Conditions.lowest_comprehension.
  rewrite weight_lowest. apply bool_decide_eq_true.
Qed.

Lemma lowScore_spec (d : TicketData) :
  lowScore d = true <-> Conditions.low_score d.
Proof.
  unfold lowScore, Conditions.low_score.
  destruct (JS.parseInt _) as [n|].
  - rewrite Z.leb_le. split.
    + intros H. exists n. auto.
    + intros (m & [= <-] & H). exact H.
  - split; [discriminate | intros (m & H & _); discriminate].
Qed.

Lemma is_priority_spec (d : TicketData) :
  is_priority d = true <-> Conditions.low_score d \/ Conditions.lowest_comprehension d.
Proof.
  unfold is_priority. rewrite orb_true_iff, lowScore_spec, lowComprehension_spec.
  reflexivity.
Qed.

Lemma filter_sublist (A : Type) (f : A -> bool) (l : list A) :
  sublist (List.filter f l) l.
Proof.
  induction l as [|x l IH]; simpl; [constructor|].
  destruct (f x); [apply sublist_skip | apply sublist_cons]; exact IH.
Qed.

(** C5. The priority list is made, in order, from exactly those filtered
    records whose score parses as an integer at most 7 or whose
    comprehension answer maps to the lowest level.  Each entry has a
    non-empty reason and one of three tags, tested in this order: both flags
    [bg-red-700], else comprehension only [bg-red-500], else score only
    [bg-yellow-600].  Score 5 with the highest comprehension is tagged score
    only, score 9 with the lowest comprehension is tagged comprehension only,
    and score 5 with the lowest comprehension gets the both-flags tag. *)
Theorem C5_priority_students (P : Platform) (st : State) :
  (exists kept,
      priorityStudents P st = map (to_priority P) kept
      /\ sublist kept (filteredData P st)
      /\ forall d, In d kept <->
            In d (filteredData P st)
            /\ (Conditions.low_score d \/ Conditions.lowest_comprehension d))
  /\ (forall d,
        Conditions.low_score d \/ Conditions.lowest_comprehension d ->
        razon (to_priority P d) <> ""
        /\ (Conditions.lowest_comprehension d -> Conditions.low_score d ->
            badgeColor (to_priority P d) = "bg-red-700")
        /\ (Conditions.lowest_comprehension d -> ~ Conditions.low_score d ->
            badgeColor (to_priority P d) = "bg-red-500")
        /\ (~ Conditions.lowest_comprehension d -> Conditions.low_score d ->
            badgeColor (to_priority P d) = "bg-yellow-600"))
  /\ badgeColor (to_priority P (Samples.ticket "5" Samples.high "ok")) = "bg-yellow-600"
  /\ badgeColor (to_priority P (Samples.ticket "9" Samples.low "ok")) = "bg-red-500"
  /\ badgeColor (to_priority P (Samples.ticket "5" Samples.low "ok")) = "bg-red-700"
  /\ map badgeColor
       (priorityStudents P
          (Samples.loaded [ Samples.ticket "5" Samples.high "ok";
                            Samples.ticket "9" Samples.high "ok";
                            Samples.ticket "9" Samples.low "ok";
                            Samples.ticket "5" Samples.low "ok" ]))
     = ["bg-yellow-600"; "bg-red-500"; "bg-red-700"].
Proof.
  split; [|split].
  - exists (List.filter is_priority (filteredData P st)).
    split; [reflexivity|]. split; [apply filter_sublist|].
    intros d. rewrite filter_In, is_priority_spec. reflexivity.
  - intros d Hd. apply is_priority_spec in Hd.
    simpl razon. simpl badgeColor. unfold reason, badge, is_priority in *.
    rewrite <- !lowScore_spec, <- !lowComprehension_spec.
    destruct (lowComprehension d), (lowScore d); simpl in *;
      try discriminate; (split; [discriminate|]); repeat split; intros;
        try reflexivity; try congruence; exfalso; auto.
  - repeat split; vm_compute; reflexivity.
Qed.

(** *** binary64 quotients *)

(** On every pair of integers from 1 to 64 the quotient of [JS.div] is the
    one the Standard Library's [SFdiv] computes for binary64. *)
Lemma div_agrees_with_SFdiv :
  forallb (fun s => forallb (JS.agrees_with_SFdiv s) (Pos.of_nat <$> seq 1 64))
    (Pos.of_nat <$> seq 1 64) = true.
Proof. vm_compute. reflexivity. Qed.

Lemma round_half_even_lower (num den c : Z) :
  0 < den -> (2 * c - 1) * den < 2 * num -> c <= JS.round_half_even num den.
Proof.
  intros Hd H. unfold JS.round_half_even.
  pose proof (Z.div_mod num den ltac:(lia)) as E.
  pose proof (Z.mod_pos_bound num den Hd) as B.
  set (q := num / den) in *. set (r := num mod den) in *.
  destruct (Z.ltb_spec (2 * r) den); [nia|].
  destruct (Z.ltb_spec den (2 * r)); [nia|].
  destruct (Z.even q); nia.
Qed.

Lemma round_half_even_upper (num den c : Z) :
  0 < den -> 2 * num < (2 * c + 1) * den -> JS.round_half_even num den <= c.
Proof.
  intros Hd H. unfold JS.round_half_even.
  pose proof (Z.div_mod num den ltac:(lia)) as E.
  pose proof (Z.mod_pos_bound num den Hd) as B.
  set (q := num / den) in *. set (r := num mod den) in *.
  destruct (Z.ltb_spec (2 * r) den); [nia|].
  destruct (Z.ltb_spec den (2 * r)); [nia|].
  destruct (Z.even q); nia.
Qed.

Lemma round_half_even_error (num den : Z) :
  0 < den ->
  - den <= 2 * (JS.round_half_even num den * den - num) <= den.
Proof.
  intros Hd. unfold JS.round_half_even.
  pose proof (Z.div_mod num den ltac:(lia)) as E.
  pose proof (Z.mod_pos_bound num den Hd) as B.
  set (q := num / den) in *. set (r := num mod den) in *.
  destruct (Z.ltb_spec (2 * r) den); [nia|].
  destruct (Z.ltb_spec den (2 * r)); [nia|].
  destruct (Z.even q); nia.
Qed.

Lemma binade_bounds (s n : Z) :
  0 < n <= s ->
  0 <= JS.binade s n /\ n * 2 ^ JS.binade s n <= s < n * 2 ^ (JS.binade s n + 1).
Proof.
  intros [Hn Hs]. unfold JS.binade.
  pose proof (Z.log2_spec s ltac:(lia)) as [Sa Sb].
  pose proof (Z.log2_spec n Hn) as [Na Nb].
  pose proof (Z.log2_le_mono n s Hs) as Hle.
  pose proof (Z.log2_nonneg n) as Hb.
  set (a := Z.log2 s) in *. set (b := Z.log2 n) in *.
  replace (Z.max 0 (- (a - b))) with 0 by lia.
  replace (Z.max 0 (a - b)) with (a - b) by lia.
  rewrite Z.pow_0_r, Z.mul_1_r.
  assert (EA : 2 ^ a = 2 ^ b * 2 ^ (a - b)).
  { rewrite <- Z.pow_add_r by lia. f_equal. lia. }
  rewrite Z.pow_succ_r in Sb, Nb by lia.
  pose proof (Z.pow_pos_nonneg 2 b ltac:(lia) Hb) as Bpos.
  pose proof (Z.pow_pos_nonneg 2 (a - b) ltac:(lia) ltac:(lia)) as Kpos.
  destruct (Z.ltb_spec s (n * 2 ^ (a - b))) as [Hlt|Hge].
  - assert (a - b <> 0).
    { intros E0. rewrite E0, Z.pow_0_r in Hlt. lia. }
    replace (a - b - 1 + 1) with (a - b) by lia.
    assert (EK : 2 ^ (a - b) = 2 * 2 ^ (a - b - 1)).
    { rewrite <- Z.pow_succ_r by lia. f_equal. lia. }
    pose proof (Z.pow_pos_nonneg 2 (a - b - 1) ltac:(lia) ltac:(lia)).
    split; [lia|]. split; [nia | exact Hlt].
  - rewrite Z.pow_add_r, Z.pow_1_r by lia.
    split; [lia|]. split; [exact Hge | nia].
Qed.

Lemma div_form (s n : Z) :
  0 < n <= s -> s <= 10 * n ->
  exists k, 0 <= k <= 3 /\ n * 2 ^ k <= s < n * 2 ^ (k + 1)
            /\ JS.div s n = {| JS.mant := JS.round_half_even (s * 2 ^ (52 - k)) n;
                               JS.expo := k - 52 |}.
Proof.
  intros Hn Hs. destruct (binade_bounds s n Hn) as (Hk & Hlo & Hhi).
  exists (JS.binade s n). 
  assert (JS.binade s n <= 3).
  { destruct (Z.le_gt_cases (JS.binade s n) 3) as [|Hgt]; [assumption|].
    assert (2 ^ 4 <= 2 ^ JS.binade s n) by (apply Z.pow_le_mono_r; lia).
    change (2 ^ 4) with 16 in *. nia. }
  split; [lia|]. split; [lia|].
  unfold JS.div.
  replace (Z.max 0 (- (JS.binade s n - 52))) with (52 - JS.binade s n) by lia.
  replace (Z.max 0 (JS.binade s n - 52)) with 0 by lia.
  rewrite Z.pow_0_r, Z.mul_1_r. reflexivity.
Qed.

Lemma hundredths_form (m k : Z) :
  0 <= k <= 3 ->
  JS.hundredths {| JS.mant := m; JS.expo := k - 52 |}
  = (200 * m + 2 ^ (52 - k)) / (2 * 2 ^ (52 - k)).
Proof.
  intros Hk. unfold JS.hundredths. simpl.
  replace (Z.max 0 (k - 52)) with 0 by lia.
  replace (Z.max 0 (- (k - 52))) with (52 - k) by lia.
  rewrite Z.pow_0_r, Z.mul_1_r. reflexivity.
Qed.

Lemma pow2_range (k : Z) : 0 <= k <= 3 -> 2 ^ 49 <= 2 ^ (52 - k) <= 2 ^ 52.
Proof. intros Hk. split; apply Z.pow_le_mono_r; lia. Qed.

Lemma average_hundredths (s n : Z) :
  0 < n <= s -> s <= 10 * n ->
  100 <= JS.hundredths (JS.div s n) <= 1000.
Proof.
  intros Hn Hs. destruct (div_form s n Hn Hs) as (k & Hk & _ & ->).
  rewrite hundredths_form by exact Hk.
  pose proof (pow2_range k Hk) as HP. set (p := 2 ^ (52 - k)) in *.
  change (2 ^ 49) with 562949953421312 in HP.
  assert (Hlo : p <= JS.round_half_even (s * p) n)
    by (apply round_half_even_lower; nia).
  assert (Hhi : JS.round_half_even (s * p) n <= 10 * p)
    by (apply round_half_even_upper; nia).
  split.
  - apply Z.div_le_lower_bound; lia.
  - apply Z.lt_succ_r. apply Z.div_lt_upper_bound; lia.
Qed.

Lemma average_nearest (s n : Z) :
  0 < n <= s -> s <= 10 * n -> n < 2 ^ 32 ->
  - n <= 2 * (JS.hundredths (JS.div s n) * n - 100 * s) <= n.
Proof.
  intros Hn Hs Hlen. destruct (div_form s n Hn Hs) as (k & Hk & _ & ->).
  rewrite hundredths_form by exact Hk.
  pose proof (pow2_range k Hk) as HP. set (p := 2 ^ (52 - k)) in *.
  change (2 ^ 49) with 562949953421312 in HP.
  change (2 ^ 32) with 4294967296 in Hlen.
  pose proof (round_half_even_error (s * p) n ltac:(lia)) as He.
  set (m := JS.round_half_even (s * p) n) in *.
  pose proof (Z.div_mod (200 * m + p) (2 * p) ltac:(lia)) as E.
  pose proof (Z.mod_pos_bound (200 * m + p) (2 * p) ltac:(lia)) as B.
  set (h := (200 * m + p) / (2 * p)) in *.
  set (r := (200 * m + p) mod (2 * p)) in *.
  nia.
Qed.

Lemma foldl_add (acc : Z) (l : list Z) : foldl Z.add acc l = acc + foldl Z.add 0 l.
Proof.
  revert acc. induction l as [|y l IH]; intros acc; simpl.
  - lia.
  - rewrite (IH (acc + y)), (IH (0 + y)). lia.
Qed.

Lemma sum_cons (x : Z) (l : list Z) : sum (x :: l) = x + sum l.
Proof. unfold sum. simpl. rewrite foldl_add. lia. Qed.

Lemma sum_bounds (a b : Z) (l : list Z) :
  Forall (fun x => a <= x <= b) l ->
  a * Z.of_nat (length l) <= sum l <= b * Z.of_nat (length l).
Proof.
  induction 1 as [|x l Hx _ IH].
  - unfold sum. simpl. lia.
  - rewrite sum_cons. simpl length. lia.
Qed.

Lemma geb_thresholds (s n : Z) :
  0 < n <= s -> s <= 3 * n -> n < 2 ^ 32 ->
  JS.geb (JS.div s n) (JS.div 27 10) = (27 * n <=? 10 * s)
  /\ JS.geb (JS.div s n) (JS.div 2 1) = (2 * n <=? s)
  /\ JS.geb (JS.div s n) (JS.div 1 1) = (n <=? s).
Proof.
  intros Hn Hs Hlen. destruct (div_form s n Hn ltac:(lia)) as (k & Hk & Hb & ->).
  change (2 ^ 32) with 4294967296 in Hlen.
  change (JS.div 27 10) with {| JS.mant := 6079859496950170; JS.expo := -51 |}.
  change (JS.div 2 1) with {| JS.mant := 4503599627370496; JS.expo := -51 |}.
  change (JS.div 1 1) with {| JS.mant := 4503599627370496; JS.expo := -52 |}.
  assert (Hk' : k = 0 \/ k = 1).
  { destruct (Z.le_gt_cases k 1); [lia|].
    assert (2 ^ 2 <= 2 ^ k) by (apply Z.pow_le_mono_r; lia).
    change (2 ^ 2) with 4 in *. nia. }
  unfold JS.geb; simpl JS.mant; simpl JS.expo.
  destruct Hk' as [-> | ->].
  - change (2 ^ (0 + 1)) with 2 in Hb. change (2 ^ 0) with 1 in Hb.
    change (52 - 0) with 52. change (2 ^ 52) with 4503599627370496.
    change (Z.max 0 (-51 - (0 - 52))) with 1.
    change (Z.max 0 (0 - 52 - -51)) with 0.
    change (Z.max 0 (-52 - (0 - 52))) with 0.
    change (Z.max 0 (0 - 52 - -52)) with 0.
    change (2 ^ 1) with 2. change (2 ^ 0) with 1.
    set (m := JS.round_half_even (s * 4503599627370496) n).
    assert (Hm1 : 4503599627370496 <= m)
      by (apply round_half_even_lower; lia).
    assert (Hm2 : m <= 9007199254740991)
      by (apply round_half_even_upper; lia).
    repeat split.
    + destruct (Z.leb_spec (6079859496950170 * 2) (m * 1)),
               (Z.leb_spec (27 * n) (10 * s)); try reflexivity; lia.
    + destruct (Z.leb_spec (4503599627370496 * 2) (m * 1)),
               (Z.leb_spec (2 * n) s); try reflexivity; lia.
    + destruct (Z.leb_spec (4503599627370496 * 1) (m * 1)),
               (Z.leb_spec n s); try reflexivity; lia.
  - change (2 ^ (1 + 1)) with 4 in Hb. change (2 ^ 1) with 2 in Hb.
    change (52 - 1) with 51. change (2 ^ 51) with 2251799813685248.
    change (Z.max 0 (-51 - (1 - 52))) with 0.
    change (Z.max 0 (1 - 52 - -51)) with 0.
    change (Z.max 0 (-52 - (1 - 52))) with 0.
    change (Z.max 0 (1 - 52 - -52)) with 1.
    change (2 ^ 1) with 2. change (2 ^ 0) with 1.
    set (m := JS.round_half_even (s * 2251799813685248) n).
    assert (Hm1 : 4503599627370496 <= m)
      by (apply round_half_even_lower; lia).
    repeat split.
    + destruct (Z.leb_spec (27 * n) (10 * s)) as [H|H].
      * assert (6079859496950170 <= m) by (apply round_half_even_lower; lia).
        apply Z.leb_le. lia.
      * assert (m <= 6079859496950169) by (apply round_half_even_upper; lia).
        apply Z.leb_gt. lia.
    + destruct (Z.leb_spec (4503599627370496 * 1) (m * 1)),
               (Z.leb_spec (2 * n) s); try reflexivity; lia.
    + destruct (Z.leb_spec (4503599627370496 * 1) (m * 2)),
               (Z.leb_spec n s); try reflexivity; lia.
Qed.

(** *** Mean score *)

Lemma valid_scores_spec (rows : list TicketData) (s : Z) :
  In s (valid_scores rows) <->
  exists d, In d rows /\ JS.parseInt (field d DataService.scoreIndex) = Some s /\ 1 <= s <= 10.
Proof.
  unfold valid_scores. rewrite filter_In, <- list_elem_of_In, list_elem_of_omap.
  rewrite andb_true_iff, !Z.leb_le. split.
  - intros [(d & Hd & Hp) Hr]. exists d. rewrite <- list_elem_of_In. auto.
  - intros (d & Hd & Hp & Hr). split; [|exact Hr]. exists d.
    rewrite list_elem_of_In. auto.
Qed.

Lemma valid_scores_range (rows : list TicketData) :
  Forall (fun s => 1 <= s <= 10) (valid_scores rows).
Proof.
  apply List.Forall_forall. intros s Hs. apply valid_scores_spec in Hs.
  destruct Hs as (_ & _ & _ & H). exact H.
Qed.

Lemma omap_length_le {A B : Type} (f : A -> option B) (l : list A) :
  (length (omap f l) <= length l)%nat.
Proof.
  induction l as [|x l IH]; csimpl; [lia|].
  destruct (f x); simpl; lia.
Qed.

Lemma valid_scores_length (rows : list TicketData) :
  (length (valid_scores rows) <= length rows)%nat.
Proof.
  unfold valid_scores.
  etransitivity; [apply filter_length_le | apply omap_length_le].
Qed.

Lemma filteredData_length (P : Platform) (st : State) :
  (length (filteredData P st) <= length (allData st))%nat.
Proof.
  unfold filteredData. destruct (allData st) as [|row rows]; [simpl; lia|].
  apply filter_length_le.
Qed.

Lemma average_of_cases (scores : list Z) :
  Forall (fun s => 1 <= s <= 10) scores ->
  (scores = [] /\ average_of scores = "N/A")
  \/ (scores <> []
      /\ 0 < Z.of_nat (length scores) <= sum scores
      /\ sum scores <= 10 * Z.of_nat (length scores)
      /\ average_of scores
         = JS.fixed2 (JS.hundredths (JS.div (sum scores) (Z.of_nat (length scores))))).
Proof.
  intros Hr. destruct scores as [|x l] eqn:E; [left; auto|right].
  rewrite <- E in *. pose proof (sum_bounds 1 10 _ Hr) as Hb.
  assert (0 < Z.of_nat (length scores)) by (rewrite E; simpl; lia).
  split; [rewrite E; discriminate|]. split; [lia|]. split; [lia|].
  rewrite E. reflexivity.
Qed.

(** C10. Whenever the mean score is reported, that is, it is not the text
    [N/A], it is the two-decimal text of a number of hundredths between 100
    and 1000: the value lies between 1.00 and 10.00 inclusive. *)
Theorem C10_average_range (P : Platform) (st : State) :
  averageScore P st <> "N/A" ->
  exists h, averageScore P st = JS.fixed2 h /\ 100 <= h <= 1000.
Proof.
  unfold averageScore. intros Hna.
  destruct (average_of_cases _ (valid_scores_range (filteredData P st)))
    as [[_ E] | (_ & Hn & Hs & E)]; [contradiction|].
  eexists. split; [exact E|]. apply average_hundredths; assumption.
Qed.

Lemma C10_average_range_witness :
  exists h,
    averageScore Samples.plain (Samples.scored ["0"; "1"; "10"; "11"; "7"]) = JS.fixed2 h
    /\ 100 <= h <= 1000.
Proof.
  apply (C10_average_range Samples.plain (Samples.scored ["0"; "1"; "10"; "11"; "7"])).
  vm_compute. discriminate.
Defined.

Lemma valid_scores_cons (d : TicketData) (rows : list TicketData) :
  valid_scores (d :: rows)
  = match JS.parseInt (field d DataService.scoreIndex) with
    | Some s => if (1 <=? s) && (s <=? 10) then s :: valid_scores rows else valid_scores rows
    | None => valid_scores rows
    end.
Proof.
  unfold valid_scores.
  destruct (JS.parseInt (field d DataService.scoreIndex)) eqn:E; csimpl; rewrite E; reflexivity.
Qed.

Lemma kept_scores_valid_scores (rows : list TicketData) (scores : list Z) :
  Conditions.kept_scores rows scores <-> scores = valid_scores rows.
Proof.
  split.
  - induction 1 as [|d rows s scores Hp Hr _ IH|d rows scores Hn _ IH];
      [reflexivity | |]; rewrite valid_scores_cons.
    + rewrite Hp. replace ((1 <=? s) && (s <=? 10)) with true by (symmetry; apply andb_true_iff; lia).
      congruence.
    + destruct (JS.parseInt (field d DataService.scoreIndex)) as [s|]; [|exact IH].
      destruct ((1 <=? s) && (s <=? 10)) eqn:E; [|exact IH].
      destruct Hn. exists s. apply andb_true_iff in E. split; [reflexivity | lia].
  - intros ->. induction rows as [|d rows IH]; [constructor|].
    rewrite valid_scores_cons.
    destruct (JS.parseInt (field d DataService.scoreIndex)) as [s|] eqn:Hp.
    + destruct ((1 <=? s) && (s <=? 10)) eqn:E.
      * apply andb_true_iff in E. apply Conditions.kept_scores_in; [exact Hp | lia | exact IH].
      * apply Conditions.kept_scores_out; [|exact IH].
        intros (s' & Hs & Hr). rewrite Hp in Hs. injection Hs as <-.
        apply andb_false_iff in E. lia.
    + apply Conditions.kept_scores_out; [|exact IH].
      intros (s' & Hs & _). rewrite Hp in Hs. discriminate.
Qed.

(** The sum as the statements write it is the sum the code folds. *)
Lemma total_sum (l : list Z) : Conditions.total l = sum l.
Proof.
  induction l as [|x l IH]; [reflexivity|].
  rewrite sum_cons, <- IH. reflexivity.
Qed.

(** C3. The mean score is computed over exactly the score fields of the
    filtered records that [parseInt] reads as an integer from 1 to 10: the
    list [scores] that takes one score per such record, in the order of the
    records, exists and is the only one of which the result is computed.
    With none, the result is [N/A].  Otherwise it is the two-decimal text of
    a number [h] of hundredths nearest to the exact mean of [scores]:
    [h / 100] differs from [total scores / length scores] by at most half a
    hundredth.  For the scores 0, 1, 10, 11, 7 the scores kept are 1, 10, 7
    and the mean is [6.00]; equal scores each count: 7, 7, 1 give [5.00].
    (An array has fewer than [2^32] elements.) *)
Theorem C3_average_score (P : Platform) (st : State) :
  Z.of_nat (length (allData st)) < 2 ^ 32 ->
  (exists scores, Conditions.kept_scores (filteredData P st) scores)
  /\ (forall scores, Conditions.kept_scores (filteredData P st) scores ->
        (scores = [] -> averageScore P st = "N/A")
        /\ (scores <> [] ->
            exists h,
              averageScore P st = JS.fixed2 h
              /\ - Z.of_nat (length scores)
                 <= 2 * (h * Z.of_nat (length scores) - 100 * Conditions.total scores)
                 <= Z.of_nat (length scores)))
  /\ Conditions.kept_scores (filteredData P (Samples.scored ["0"; "1"; "10"; "11"; "7"]))
       [1; 10; 7]
  /\ averageScore P (Samples.scored ["0"; "1"; "10"; "11"; "7"]) = "6.00"
  /\ Conditions.kept_scores (filteredData P (Samples.scored ["7"; "7"; "1"])) [7; 7; 1]
  /\ averageScore P (Samples.scored ["7"; "7"; "1"]) = "5.00"
  /\ averageScore P (Samples.scored ["0"; "11"; "once"; ""]) = "N/A".
Proof.
  intros Hlen.
  split; [eexists; apply kept_scores_valid_scores; reflexivity|].
  split.
  - intros scores Hk. apply kept_scores_valid_scores in Hk. subst scores.
    split; [intros E; unfold averageScore; rewrite E; reflexivity|].
    intros Hne. unfold averageScore. rewrite total_sum.
    destruct (average_of_cases _ (valid_scores_range (filteredData P st)))
      as [[E _] | (_ & Hn & Hs & E)]; [contradiction|].
    eexists. split; [exact E|]. apply average_nearest; try assumption.
    pose proof (valid_scores_length (filteredData P st)).
    pose proof (filteredData_length P st).
    lia.
  - split; [apply kept_scores_valid_scores; vm_compute; reflexivity|].
    split; [vm_compute; reflexivity|].
    split; [apply kept_scores_valid_scores; vm_compute; reflexivity|].
    split; vm_compute; reflexivity.
Qed.

Lemma C3_average_score_witness :
  averageScore Samples.plain (Samples.scored ["0"; "1"; "10"; "11"; "7"]) = "6.00".
Proof.
  destruct (C3_average_score Samples.plain (Samples.scored ["0"; "1"; "10"; "11"; "7"]))
    as (_ & _ & _ & H & _).
  - vm_compute. reflexivity.
  - exact H.
Defined.

(** *** Comprehension level *)

Lemma weight_mapped (key : option string) (w : Z) :
  weight key = Some w ->
  (key = Some Samples.high /\ w = 3)
  \/ (key = Some Samples.medium /\ w = 2)
  \/ (key = Some Samples.low /\ w = 1).
Proof.
  destruct key as [k|]; simpl; [|discriminate].
  unfold comprehensionMap, Samples.high, Samples.medium, Samples.low. intros H.
  destruct (decide (k = "¡Entendido! - Lo domino y podría explicarlo.")) as [->|N1].
  { rewrite lookup_insert_eq in H. left. split; congruence. }
  rewrite lookup_insert_ne in H by congruence.
  destruct (decide (k = "Más o menos. - Entendí la idea general, pero tengo dudas."))
    as [->|N2].
  { rewrite lookup_insert_eq in H. right. left. split; congruence. }
  rewrite lookup_insert_ne in H by congruence.
  apply lookup_singleton_Some in H. destruct H as [-> <-]. right. right. auto.
Qed.

Lemma weights_spec (rows : list TicketData) (w : Z) :
  In w (weights rows) <->
  exists d, In d rows
            /\ weight (JS.opt_trim (field d DataService.comprehensionIndex)) = Some w.
Proof.
  unfold weights. rewrite <- list_elem_of_In, list_elem_of_omap.
  split; intros (d & Hd & Hw); exists d; split; try exact Hw;
    apply list_elem_of_In; exact Hd.
Qed.

Lemma weights_range (rows : list TicketData) :
  Forall (fun w => 1 <= w <= 3) (weights rows).
Proof.
  apply List.Forall_forall. intros w Hw. apply weights_spec in Hw.
  destruct Hw as (d & _ & Hw). apply weight_mapped in Hw.
  destruct Hw as [[_ ->]|[[_ ->]|[_ ->]]]; lia.
Qed.

Lemma weights_cons (d : TicketData) (rows : list TicketData) :
  weights (d :: rows)
  = match weight (JS.opt_trim (field d DataService.comprehensionIndex)) with
    | Some w => w :: weights rows
    | None => weights rows
    end.
Proof.
  unfold weights.
  destruct (weight (JS.opt_trim (field d DataService.comprehensionIndex))) eqn:E;
    csimpl; rewrite E; reflexivity.
Qed.

Lemma kept_weights_weights (rows : list TicketData) (ws : list Z) :
  Conditions.kept_weights rows ws <-> ws = weights rows.
Proof.
  split.
  - induction 1 as [|d rows w ws Hw _ IH|d rows ws Hw _ IH];
      [reflexivity | |]; rewrite weights_cons, Hw; congruence.
  - intros ->. induction rows as [|d rows IH]; [constructor|].
    rewrite weights_cons.
    destruct (weight (JS.opt_trim (field d DataService.comprehensionIndex))) eqn:E.
    + apply Conditions.kept_weights_in; assumption.
    + apply Conditions.kept_weights_out; assumption.
Qed.

Lemma inherited_not_mapped (k : string) :
  k ∈ JS.Object_prototype -> comprehensionMap !! k = None.
Proof.
  intros H. destruct (comprehensionMap !! k) as [w|] eqn:E; [|reflexivity].
  destruct (weight_mapped (Some k) w E) as [[[= ->] _]|[[[= ->] _]|[[= ->] _]]];
    apply (bool_decide_pack _) in H; vm_compute in H; destruct H.
Qed.

(** The read [comprehensionMap[key]] in terms of the entries and of the
    inherited names. *)
Lemma get_comprehensionMap (key : option string) :
  JS.get comprehensionMap key
  = match weight key with
    | Some w => Some (JS.Own w)
    | None =>
        match key with
        | Some k => if bool_decide (k ∈ JS.Object_prototype)
                    then Some (JS.Inherited k) else None
        | None => None
        end
    end.
Proof.
  destruct key as [k|]; [|vm_compute; reflexivity].
  unfold JS.get, weight. simpl. destruct (comprehensionMap !! k); reflexivity.
Qed.

Lemma scores_of_cons (d : TicketData) (rows : list TicketData) :
  scores_of (d :: rows)
  = match JS.get comprehensionMap (JS.opt_trim (field d DataService.comprehensionIndex)) with
    | Some v => if truthy_value v then v :: scores_of rows else scores_of rows
    | None => scores_of rows
    end.
Proof.
  unfold scores_of.
  destruct (JS.get comprehensionMap (JS.opt_trim (field d DataService.comprehensionIndex)))
    eqn:E; csimpl; rewrite E; reflexivity.
Qed.

Lemma names_inherited_dec (d : TicketData) :
  Conditions.names_inherited d \/ ~ Conditions.names_inherited d.
Proof.
  unfold Conditions.names_inherited.
  destruct (JS.opt_trim (field d DataService.comprehensionIndex)) as [k|].
  - destruct (decide (k ∈ JS.Object_prototype)) as [H|H].
    + left. exists k. auto.
    + right. intros (k' & [= <-] & H'). contradiction.
  - right. intros (k' & H' & _). discriminate.
Qed.

(** the score read for one record *)
Lemma score_of_record (d : TicketData) :
  match JS.get comprehensionMap (JS.opt_trim (field d DataService.comprehensionIndex)) with
  | Some (JS.Own w) =>
      weight (JS.opt_trim (field d DataService.comprehensionIndex)) = Some w
      /\ truthy_value (JS.Own w) = true /\ ~ Conditions.names_inherited d
  | Some (JS.Inherited k) =>
      weight (JS.opt_trim (field d DataService.comprehensionIndex)) = None
      /\ Conditions.names_inherited d
  | None =>
      weight (JS.opt_trim (field d DataService.comprehensionIndex)) = None
      /\ ~ Conditions.names_inherited d
  end.
Proof.
  rewrite get_comprehensionMap. unfold Conditions.names_inherited.
  destruct (JS.opt_trim (field d DataService.comprehensionIndex)) as [k|].
  - destruct (weight (Some k)) as [w|] eqn:E.
    + split; [reflexivity|]. split.
      * destruct (weight_mapped _ _ E) as [[_ ->]|[[_ ->]|[_ ->]]]; reflexivity.
      * intros (k' & [= <-] & H). apply inherited_not_mapped in H.
        simpl in E. congruence.
    + destruct (bool_decide_reflect (k ∈ JS.Object_prototype)) as [H|H].
      * split; [reflexivity|]. exists k. auto.
      * split; [reflexivity|]. intros (k' & [= <-] & H'). contradiction.
  - simpl. split; [reflexivity|]. intros (k' & H' & _). discriminate.
Qed.

Lemma scores_of_plain (rows : list TicketData) :
  Forall (fun d => ~ Conditions.names_inherited d) rows ->
  scores_of rows = JS.Own <$> weights rows.
Proof.
  induction 1 as [|d rows Hd _ IH]; [reflexivity|].
  rewrite scores_of_cons, weights_cons.
  pose proof (score_of_record d) as H.
  destruct (JS.get comprehensionMap (JS.opt_trim (field d DataService.comprehensionIndex)))
    as [[w|k]|].
  - destruct H as (-> & -> & _). rewrite fmap_cons, IH. reflexivity.
  - destruct H as (_ & H). contradiction.
  - destruct H as (-> & _). exact IH.
Qed.

Lemma add_all_None (scores : list (JS.Property Z)) : add_all None scores = None.
Proof. induction scores as [|[n|k] rest IH]; simpl; auto. Qed.

Lemma add_all_Own (acc : Z) (ws : list Z) :
  add_all (Some acc) (JS.Own <$> ws) = Some (acc + sum ws).
Proof.
  revert acc. induction ws as [|w ws IH]; intros acc.
  - simpl. f_equal. unfold sum. simpl. lia.
  - rewrite fmap_cons. simpl. rewrite IH, sum_cons. f_equal. lia.
Qed.

Lemma add_all_Inherited (acc : option Z) (scores : list (JS.Property Z)) :
  (exists k, In (JS.Inherited k) scores) -> add_all acc scores = None.
Proof.
  revert acc. induction scores as [|[n|k] rest IH]; intros acc [k' H]; simpl in *.
  - destruct H.
  - destruct H as [H|H]; [discriminate|]. apply IH. eauto.
  - apply add_all_None.
Qed.

Lemma scores_of_Inherited (rows : list TicketData) :
  (exists k, In (JS.Inherited k) (scores_of rows)) <-> Exists Conditions.names_inherited rows.
Proof.
  induction rows as [|d rows IH].
  - split; [intros [k H]; destruct H | intros H; inversion H].
  - rewrite scores_of_cons, Exists_cons, <- IH.
    pose proof (score_of_record d) as H.
    destruct (JS.get comprehensionMap (JS.opt_trim (field d DataService.comprehensionIndex)))
      as [[w|k]|].
    + destruct H as (_ & -> & Hn). split.
      * intros [k [Hk|Hk]]; [discriminate | right; eauto].
      * intros [Hd|[k Hk]]; [contradiction | exists k; right; exact Hk].
    + destruct H as (_ & Hd). simpl. split; [auto|]. intros _. exists k. left. reflexivity.
    + destruct H as (_ & Hn). split; [auto | intros [Hd|Hk]; [contradiction | exact Hk]].
Qed.

Lemma comprehension_of_NaN (scores : list (JS.Property Z)) :
  (exists k, In (JS.Inherited k) scores) ->
  comprehension_of scores = "Baja (Refuerzo Urgente)".
Proof.
  intros H. unfold comprehension_of.
  destruct scores as [|v rest]; [destruct H as [k []]|].
  rewrite (add_all_Inherited _ _ H). reflexivity.
Qed.

Lemma comprehension_of_cases (ws : list Z) :
  Forall (fun w => 1 <= w <= 3) ws ->
  Z.of_nat (length ws) < 2 ^ 32 ->
  ws <> [] ->
  comprehension_of (JS.Own <$> ws)
  = if 27 * Z.of_nat (length ws) <=? 10 * sum ws then "¡Excelente Comprensión!"
    else if 2 * Z.of_nat (length ws) <=? sum ws then "Buena (Pocas Dudas)"
    else if Z.of_nat (length ws) <=? sum ws then "Media (Necesita Revisión)"
    else "Baja (Refuerzo Urgente)".
Proof.
  intros Hr Hlen Hne. pose proof (sum_bounds 1 3 _ Hr) as Hb.
  destruct ws as [|x l]; [contradiction|].
  assert (0 < Z.of_nat (length (x :: l))) by (simpl length; lia).
  destruct (geb_thresholds (sum (x :: l)) (Z.of_nat (length (x :: l))))
    as (H1 & H2 & H3); [lia | lia | exact Hlen |].
  rewrite <- H1, <- H2, <- H3.
  unfold comprehension_of. rewrite fmap_cons, <- fmap_cons.
  rewrite add_all_Own, length_fmap. simpl "+". 
  destruct (JS.Own <$> x :: l) eqn:E; [discriminate|]. reflexivity.
Qed.

Lemma weights_length (P : Platform) (st : State) :
  Z.of_nat (length (weights (filteredData P st))) <= Z.of_nat (length (allData st)).
Proof.
  pose proof (omap_length_le
                (fun d => weight (JS.opt_trim (field d DataService.comprehensionIndex)))
                (filteredData P st)) as H1.
  fold (weights (filteredData P st)) in H1.
  pose proof (filteredData_length P st). lia.
Qed.

Lemma averageComprehension_plain (P : Platform) (st : State) :
  Z.of_nat (length (allData st)) < 2 ^ 32 ->
  Forall (fun d => ~ Conditions.names_inherited d) (filteredData P st) ->
  (weights (filteredData P st) = [] /\ averageComprehension P st = "N/A")
  \/ (weights (filteredData P st) <> []
      /\ Z.of_nat (length (weights (filteredData P st)))
         <= sum (weights (filteredData P st))
      /\ averageComprehension P st
         = if 27 * Z.of_nat (length (weights (filteredData P st)))
              <=? 10 * sum (weights (filteredData P st))
           then "¡Excelente Comprensión!"
           else if 2 * Z.of_nat (length (weights (filteredData P st)))
                   <=? sum (weights (filteredData P st))
           then "Buena (Pocas Dudas)"
           else if Z.of_nat (length (weights (filteredData P st)))
                   <=? sum (weights (filteredData P st))
           then "Media (Necesita Revisión)"
           else "Baja (Refuerzo Urgente)").
Proof.
  intros Hlen Hplain. unfold averageComprehension.
  rewrite (scores_of_plain _ Hplain).
  destruct (weights (filteredData P st)) as [|w ws] eqn:E; [left; split; reflexivity|].
  right. rewrite <- E.
  assert (Hne : weights (filteredData P st) <> []) by (rewrite E; discriminate).
  pose proof (weights_range (filteredData P st)) as Hr.
  pose proof (sum_bounds 1 3 _ Hr) as Hb.
  pose proof (weights_length P st) as Hl.
  split; [exact Hne|]. split; [lia|].
  apply comprehension_of_cases; [exact Hr | lia | exact Hne].
Qed.

Lemma averageComprehension_NaN (P : Platform) (st : State) :
  Exists Conditions.names_inherited (filteredData P st) ->
  averageComprehension P st = "Baja (Refuerzo Urgente)".
Proof.
  intros H. unfold averageComprehension.
  apply comprehension_of_NaN, scores_of_Inherited, H.
Qed.

(** C4, where the code departs from it.  The three answers carry the weights
    low 1, medium 2, high 3 and no other answer carries one.  An answer that
    names a property every object inherits ([constructor], [toString],
    [__proto__], ...) carries no weight, yet the read of [comprehensionMap]
    finds the inherited value and [filter(Boolean)] keeps it; the sum is then
    no number and every comparison fails: one such answer among the filtered
    records gives the lowest label, alone (where [N/A] is due) as well as
    beside top answers.  For filtered records without such an answer the
    claim holds: with [ws] the weights of the mapped answers, one per such
    record and in the order of the records, none gives [N/A]; otherwise the
    level is excellent when [total ws / length ws >= 2.7], else good when it
    is [>= 2], else medium when it is [>= 1], else low.  The weights 3, 3, 2
    give good; an average of exactly 2.7 gives excellent, exactly 2 gives
    good, exactly 1 gives medium.  (An array has fewer than [2^32]
    elements.) *)
Theorem C4_average_comprehension (P : Platform) (st : State) :
  Z.of_nat (length (allData st)) < 2 ^ 32 ->
  (weight (Some "constructor") = None
   /\ averageComprehension P (Samples.answered ["constructor"]) = "Baja (Refuerzo Urgente)"
   /\ averageComprehension P (Samples.answered [Samples.high; " toString "; Samples.high])
      = "Baja (Refuerzo Urgente)")
  /\ (Exists Conditions.names_inherited (filteredData P st) ->
      averageComprehension P st = "Baja (Refuerzo Urgente)")
  /\ (weight (Some Samples.low) = Some 1
      /\ weight (Some Samples.medium) = Some 2
      /\ weight (Some Samples.high) = Some 3)
  /\ (forall key w, weight key = Some w ->
        key = Some Samples.low \/ key = Some Samples.medium \/ key = Some Samples.high)
  /\ (exists ws, Conditions.kept_weights (filteredData P st) ws)
  /\ (Forall (fun d => ~ Conditions.names_inherited d) (filteredData P st) ->
      forall ws, Conditions.kept_weights (filteredData P st) ws ->
        (ws = [] -> averageComprehension P st = "N/A")
        /\ (ws <> [] ->
            averageComprehension P st
            = if 27 * Z.of_nat (length ws) <=? 10 * Conditions.total ws
              then "¡Excelente Comprensión!"
              else if 2 * Z.of_nat (length ws) <=? Conditions.total ws
              then "Buena (Pocas Dudas)"
              else if Z.of_nat (length ws) <=? Conditions.total ws
              then "Media (Necesita Revisión)"
              else "Baja (Refuerzo Urgente)"))
  /\ Conditions.kept_weights
       (filteredData P (Samples.answered [Samples.high; Samples.high; Samples.medium]))
       [3; 3; 2]
  /\ averageComprehension P
       (Samples.answered [Samples.high; Samples.high; Samples.medium])
     = "Buena (Pocas Dudas)"
  /\ averageComprehension P
       (Samples.answered (replicate 7 Samples.high ++ replicate 3 Samples.medium))
     = "¡Excelente Comprensión!"
  /\ averageComprehension P (Samples.answered [Samples.high; Samples.low])
     = "Buena (Pocas Dudas)"
  /\ averageComprehension P (Samples.answered [Samples.low; Samples.low])
     = "Media (Necesita Revisión)"
  /\ averageComprehension P (Samples.answered ["No lo sé"; ""]) = "N/A".
Proof.
  intros Hlen.
  split; [repeat split; vm_compute; reflexivity|].
  split; [apply averageComprehension_NaN|].
  split; [repeat split; vm_compute; reflexivity|].
  split; [intros key w H; destruct (weight_mapped _ _ H) as [[? _]|[[? _]|[? _]]]; auto|].
  split; [eexists; apply kept_weights_weights; reflexivity|].
  split.
  - intros Hplain ws Hk. apply kept_weights_weights in Hk. subst ws. rewrite total_sum.
    destruct (averageComprehension_plain P st Hlen Hplain) as [[E ->]|(Hne & _ & ->)].
    + split; [reflexivity | intros H; contradiction].
    + split; [intros H; contradiction | reflexivity].
  - split; [apply kept_weights_weights; vm_compute; reflexivity|].
    repeat split; vm_compute; reflexivity.
Qed.

Lemma C4_average_comprehension_witness :
  averageComprehension Samples.plain (Samples.answered [Samples.medium; "valueOf"; Samples.low])
  = "Baja (Refuerzo Urgente)".
Proof.
  destruct (C4_average_comprehension Samples.plain
              (Samples.answered [Samples.medium; "valueOf"; Samples.low]))
    as (_ & H & _).
  - vm_compute. reflexivity.
  - apply H. apply Exists_cons_tl, Exists_cons_hd. exists "valueOf".
    split; [vm_compute; reflexivity | apply (bool_decide_unpack _); vm_compute; exact I].
Defined.

(** ** Further properties *)

(** *** Filtering *)

Lemma not_empty (s : string) : JS.not_ s = true <-> s = "".
Proof. destruct s; unfold JS.not_; simpl; split; intros; congruence. Qed.

Lemma not_nonempty (s : string) : JS.not_ s = false <-> s <> "".
Proof. destruct s; unfold JS.not_; simpl; split; intros; congruence. Qed.

Lemma Date_geb_spec (a b : Date) :
  Date_geb a b = true <-> exists x y, a = Some x /\ b = Some y /\ y <= x.
Proof.
  destruct a as [x|], b as [y|]; simpl.
  - rewrite Z.leb_le. split; [intros H; exists x, y; auto|].
    intros (x' & y' & [= <-] & [= <-] & H). exact H.
  - split; [discriminate | intros (? & ? & _ & H & _); discriminate].
  - split; [discriminate | intros (? & ? & H & _); discriminate].
  - split; [discriminate | intros (? & ? & H & _); discriminate].
Qed.

Lemma Date_leb_spec (a b : Date) :
  Date_leb a b = true <-> exists x y, a = Some x /\ b = Some y /\ x <= y.
Proof.
  destruct a as [x|], b as [y|]; simpl.
  - rewrite Z.leb_le. split; [intros H; exists x, y; auto|].
    intros (x' & y' & [= <-] & [= <-] & H). exact H.
  - split; [discriminate | intros (? & ? & _ & H & _); discriminate].
  - split; [discriminate | intros (? & ? & H & _); discriminate].
  - split; [discriminate | intros (? & ? & H & _); discriminate].
Qed.

Lemma row_matches_spec (P : Platform) (start end_ materia paralelo : string) (d : TicketData) :
  row_matches P start end_ materia paralelo d = true <->
  Matching.passes_start P start d /\ Matching.passes_end P end_ d
  /\ Matching.passes_materia materia d /\ Matching.passes_paralelo paralelo d.
Proof.
  unfold row_matches, Matching.passes_start, Matching.passes_end,
    Matching.passes_materia, Matching.passes_paralelo.
  rewrite !andb_true_iff, !orb_true_iff, !not_empty, !bool_decide_eq_true.
  rewrite Date_geb_spec, Date_leb_spec.
  assert (Hs : (exists x y, Timestamp d = Some x /\ Date_parse P start = Some y /\ y <= x)
               <-> (exists t t0, Timestamp d = Some t /\ Date_parse P start = Some t0 /\ t0 <= t))
    by reflexivity.
  assert (He : end_ = "" \/
               (exists x y, Timestamp d = Some x
                  /\ default (Some 0)
                       (if JS.truthy (Some end_)
                        then Some (setHours_end_of_day P <$> Date_parse P end_)
                        else None) = Some y /\ x <= y)
               <-> end_ = "" \/
                   (exists t t1, Timestamp d = Some t /\ Date_parse P end_ = Some t1
                      /\ t <= setHours_end_of_day P t1)).
  { destruct end_ as [|c r]; [tauto|]. simpl.
    split; (intros [H|H]; [left; exact H | right]).
    - destruct H as (x & y & Hx & Hy & Hle).
      destruct (Date_parse P (String c r)) as [t1|]; simpl in Hy; [|discriminate].
      injection Hy as <-. exists x, t1. auto.
    - destruct H as (t & t1 & Ht & Hp & Hle). exists t, (setHours_end_of_day P t1).
      rewrite Hp. simpl. auto. }
  tauto.
Qed.

Lemma filteredData_In (P : Platform) (st : State) (d : TicketData) :
  In d (filteredData P st) <->
  In d (allData st)
  /\ Matching.passes_start P (appliedStartDate (applied st)) d
  /\ Matching.passes_end P (appliedEndDate (applied st)) d
  /\ Matching.passes_materia (appliedSelectedMateria (applied st)) d
  /\ Matching.passes_paralelo (appliedSelectedParalelo (applied st)) d.
Proof.
  unfold filteredData. destruct (allData st) as [|row rows].
  - simpl. tauto.
  - rewrite filter_In, row_matches_spec. reflexivity.
Qed.

(** X1. A record is in the filtered set exactly when it is loaded and passes
    the four tests: start date unset or the record's time at or after it,
    end date unset or the record's time at or before the end of that day,
    category unset or equal to the record's, subgroup unset or equal to the
    record's. *)
Theorem X1_filteredData_members (P : Platform) (st : State) (d : TicketData) :
  In d (filteredData P st) <->
  In d (allData st)
  /\ Matching.passes_start P (appliedStartDate (applied st)) d
  /\ Matching.passes_end P (appliedEndDate (applied st)) d
  /\ Matching.passes_materia (appliedSelectedMateria (applied st)) d
  /\ Matching.passes_paralelo (appliedSelectedParalelo (applied st)) d.
Proof. apply filteredData_In. Qed.

(** X2. The filtered set is a sub-list of the loaded records: the records
    kept stay in their order and none is added, so the count of responses is
    at most the number of loaded records. *)
Theorem X2_filteredData_sublist (P : Platform) (st : State) :
  sublist (filteredData P st) (allData st)
  /\ (totalResponses P st <= length (allData st))%nat.
Proof.
  split; [|apply filteredData_length].
  unfold filteredData. destruct (allData st); [constructor | apply filter_sublist].
Qed.

Lemma nil_of_no_member {A : Type} (l : list A) : (forall x, ~ In x l) -> l = [].
Proof. destruct l as [|x l]; [reflexivity|]. intros H. destruct (H x). left. reflexivity. Qed.

(** X3. When the applied start date, or the applied end date, is set but
    is not a date, no record passes the filter; and a record whose timestamp
    is not a valid date is left out as soon as a start or an end date is
    set. *)
Theorem X3_filteredData_invalid_dates (P : Platform) (st : State) :
  (appliedStartDate (applied st) <> "" ->
   Date_parse P (appliedStartDate (applied st)) = None ->
   filteredData P st = [])
  /\ (appliedEndDate (applied st) <> "" ->
      Date_parse P (appliedEndDate (applied st)) = None ->
      filteredData P st = [])
  /\ (forall d, Timestamp d = None ->
        appliedStartDate (applied st) <> "" \/ appliedEndDate (applied st) <> "" ->
        ~ In d (filteredData P st)).
Proof.
  split; [|split].
  - intros Hne Hp. apply nil_of_no_member. intros d Hd.
    apply filteredData_In in Hd. destruct Hd as (_ & [H|H] & _); [contradiction|].
    destruct H as (t & t0 & _ & H & _). congruence.
  - intros Hne Hp. apply nil_of_no_member. intros d Hd.
    apply filteredData_In in Hd. destruct Hd as (_ & _ & [H|H] & _); [contradiction|].
    destruct H as (t & t0 & _ & H & _). congruence.
  - intros d Ht Hset Hd. apply filteredData_In in Hd.
    destruct Hd as (_ & Hs & He & _).
    destruct Hset as [Hne|Hne].
    + destruct Hs as [H|(t & t0 & H & _)]; congruence.
    + destruct He as [H|(t & t0 & H & _)]; congruence.
Qed.

(** X4. Editing a filter control changes neither the filtered set, nor the
    applied selection, nor any report; [applyFilters] then makes the edited
    value the applied one (after a category is entered and applied, every
    filtered record has that category).  [applyFilters] done twice is
    [applyFilters] done once, and it leaves the loaded records, the pending
    selection and the issued requests as they are. *)
Theorem X4_filters_decoupled (P : Platform) (value : string) (filterType : FilterType)
    (st : State) :
  filteredData P (onFilterChange value filterType st) = filteredData P st
  /\ summaries (onFilterChange value filterType st) = summaries st
  /\ applied (onFilterChange value filterType st) = applied st
  /\ match filterType with
     | startDate_t =>
         appliedStartDate (applied (applyFilters (onFilterChange value filterType st)))
     | endDate_t =>
         appliedEndDate (applied (applyFilters (onFilterChange value filterType st)))
     | materia_t =>
         appliedSelectedMateria (applied (applyFilters (onFilterChange value filterType st)))
     | paralelo_t =>
         appliedSelectedParalelo (applied (applyFilters (onFilterChange value filterType st)))
     end = value
  /\ (value <> "" ->
      forall d,
        In d (filteredData P (applyFilters (onFilterChange value materia_t st))) ->
        Materia d = Some value)
  /\ applyFilters (applyFilters st) = applyFilters st
  /\ allData (applyFilters st) = allData st
  /\ filters (applyFilters st) = filters st
  /\ requests (applyFilters st) = requests st.
Proof.
  split; [reflexivity|]. split; [reflexivity|]. split; [reflexivity|].
  split; [destruct filterType; reflexivity|].
  split; [|repeat split; reflexivity].
  intros Hne d Hd. apply filteredData_In in Hd.
  destruct Hd as (_ & _ & _ & [H|H] & _); [contradiction | exact H].
Qed.

(** *** Filter options *)

Section OptionProperties.

Import Options.

Lemma distinct_from_In (seen values : list (option string)) (x : option string) :
  In x (distinct_from seen values) <-> In x values /\ ~ In x seen.
Proof.
  revert seen. induction values as [|y rest IH]; intros seen; simpl; [tauto|].
  destruct (bool_decide_reflect (y ∈ seen)) as [Hy|Hy]; rewrite list_elem_of_In in Hy.
  - rewrite IH. split; [tauto|]. intros [[<-|H] Hn]; tauto.
  - simpl. rewrite IH. simpl. split.
    + intros [<-|(H & Hn)]; tauto.
    + intros [[<-|H] Hn]; [tauto|].
      destruct (decide (y = x)) as [->|Hne]; [tauto|]. right. tauto.
Qed.

Lemma distinct_from_NoDup (seen values : list (option string)) :
  List.NoDup (distinct_from seen values).
Proof.
  revert seen. induction values as [|y rest IH]; intros seen; simpl; [constructor|].
  destruct (bool_decide (y ∈ seen)); [apply IH|].
  constructor; [|apply IH]. rewrite distinct_from_In. simpl. tauto.
Qed.

Lemma insert_sorted_perm (x : option string) (l : list (option string)) :
  Permutation (insert_sorted x l) (x :: l).
Proof.
  induction l as [|y l IH]; simpl; [reflexivity|].
  destruct (sort_leb x y); [reflexivity|].
  rewrite IH. apply perm_swap.
Qed.

Lemma sort_perm (l : list (option string)) : Permutation (sort l) l.
Proof.
  induction l as [|x l IH]; simpl; [reflexivity|].
  rewrite insert_sorted_perm, IH. reflexivity.
Qed.

Lemma rank_inj (a b : ascii) : rank a = rank b -> a = b.
Proof.
  unfold rank. intros H.
  rewrite <- (ascii_N_embedding a), <- (ascii_N_embedding b).
  pose proof (N_ascii_bounded a). pose proof (N_ascii_bounded b).
  f_equal.
  destruct (N.ltb_spec (N_of_ascii a) 238), (N.ltb_spec (N_of_ascii b) 238);
    [lia | | | ];
    destruct (N.ltb_spec (N_of_ascii a) 240), (N.ltb_spec (N_of_ascii b) 240); lia.
Qed.

Lemma code_unit_leb_total (s t : string) :
  code_unit_leb s t = false -> code_unit_leb t s = true.
Proof.
  revert t. induction s as [|a s IH]; intros [|b t]; simpl; try congruence.
  rewrite (Ascii.eqb_sym b a).
  destruct (Ascii.eqb_spec a b) as [->|Hne]; [apply IH|].
  rewrite N.ltb_ge, N.ltb_lt. intros H.
  destruct (N.eq_dec (rank a) (rank b)) as [E|E]; [|lia].
  destruct (Hne (rank_inj _ _ E)).
Qed.

Lemma sort_leb_total (x y : option string) : sort_leb x y = false -> sort_leb y x = true.
Proof.
  destruct x as [s|], y as [t|]; simpl; try congruence. apply code_unit_leb_total.
Qed.

Lemma insert_sorted_sorted (x : option string) (l : list (option string)) :
  Sorted (fun a b => sort_leb a b = true) l ->
  Sorted (fun a b => sort_leb a b = true) (insert_sorted x l).
Proof.
  induction 1 as [|y l Hs IH Hd]; simpl.
  - repeat constructor.
  - destruct (sort_leb x y) eqn:E.
    + constructor; [constructor; assumption|]. constructor. exact E.
    + constructor; [exact IH|].
      apply sort_leb_total in E.
      destruct l as [|z l]; simpl.
      * constructor. exact E.
      * destruct (sort_leb x z); constructor; [exact E|].
        inversion Hd. assumption.
Qed.

Lemma sort_sorted (l : list (option string)) :
  Sorted (fun a b => sort_leb a b = true) (sort l).
Proof.
  induction l as [|x l IH]; simpl; [constructor | apply insert_sorted_sorted; exact IH].
Qed.

Lemma options_of (f : TicketData -> option string) (rows : list TicketData) :
  (forall x, In x (sort (distinct (map f rows))) <-> exists d, In d rows /\ f d = x)
  /\ List.NoDup (sort (distinct (map f rows)))
  /\ Sorted (fun a b => sort_leb a b = true) (sort (distinct (map f rows))).
Proof.
  split; [|split].
  - intros x. unfold distinct.
    rewrite (Permutation_in' (eq_refl x) (sort_perm _)).
    rewrite distinct_from_In, in_map_iff. simpl. split.
    + intros [(d & Hf & Hd) _]. exists d. auto.
    + intros (d & Hd & Hf). split; [exists d; auto | tauto].
  - apply (Permutation_NoDup (Permutation_sym (sort_perm _))).
    apply distinct_from_NoDup.
  - apply sort_sorted.
Qed.

(** X5. The categories offered are exactly the category values of the
    loaded records, each once, in ascending order of code units with a
    missing value last; the same holds of the subgroups. *)
Theorem X5_filterOptions (st : State) :
  ((forall x, In x (materias (filterOptions st)) <->
      exists d, In d (allData st) /\ Materia d = x)
   /\ List.NoDup (materias (filterOptions st))
   /\ Sorted (fun a b => sort_leb a b = true) (materias (filterOptions st)))
  /\ ((forall x, In x (paralelos (filterOptions st)) <->
         exists d, In d (allData st) /\ Paralelo d = x)
      /\ List.NoDup (paralelos (filterOptions st))
      /\ Sorted (fun a b => sort_leb a b = true) (paralelos (filterOptions st))).
Proof. split; apply options_of. Qed.

Example filterOptions_example :
  materias (filterOptions
    (Samples.loaded
       (map (fun m => {| Timestamp := None; answers := {[ "Materia" := m ]} |})
          ["Química"; "Fisica"; "Álgebra"; "Fisica"; "fisica"])))
  = [Some "Fisica"; Some "Química"; Some "fisica"; Some "Álgebra"].
Proof. vm_compute. reflexivity. Qed.

End OptionProperties.

(** *** Summary cards *)

Lemma weights_nil (rows : list TicketData) :
  weights rows = []
  <-> Forall (fun d => weight (JS.opt_trim (field d DataService.comprehensionIndex)) = None)
        rows.
Proof.
  induction rows as [|d rows IH]; [split; [constructor | reflexivity]|].
  rewrite weights_cons, Forall_cons_iff, <- IH.
  destruct (weight (JS.opt_trim (field d DataService.comprehensionIndex))).
  - split; [discriminate | intros [H _]; discriminate].
  - tauto.
Qed.

Lemma Exists_names_inherited_dec (rows : list TicketData) :
  Exists Conditions.names_inherited rows
  \/ Forall (fun d => ~ Conditions.names_inherited d) rows.
Proof.
  induction rows as [|d rows [IH|IH]].
  - right. constructor.
  - left. apply Exists_cons_tl, IH.
  - destruct (names_inherited_dec d) as [H|H].
    + left. apply Exists_cons_hd, H.
    + right. constructor; assumption.
Qed.

(** X6. For an array below [2^32] elements the comprehension level is the
    lowest label exactly when a filtered record's answer names a property
    that objects inherit: the weights 1, 2 and 3 alone never average below
    1.  It is [N/A] exactly when no filtered record has one of the three
    answers or names an inherited property. *)
Theorem X6_comprehension_lowest (P : Platform) (st : State) :
  Z.of_nat (length (allData st)) < 2 ^ 32 ->
  (averageComprehension P st = "Baja (Refuerzo Urgente)"
   <-> Exists Conditions.names_inherited (filteredData P st))
  /\ (averageComprehension P st = "N/A"
      <-> Forall (fun d =>
                    weight (JS.opt_trim (field d DataService.comprehensionIndex)) = None
                    /\ ~ Conditions.names_inherited d) (filteredData P st)).
Proof.
  intros Hlen.
  destruct (Exists_names_inherited_dec (filteredData P st)) as [He|Hf].
  - rewrite (averageComprehension_NaN P st He). split; [tauto|].
    split; [discriminate|]. intros Hall. exfalso.
    apply List.Exists_exists in He. destruct He as (d & Hd & Hi).
    rewrite List.Forall_forall in Hall. destruct (Hall d Hd) as [_ Hn]. contradiction.
  - assert (Hno : ~ Exists Conditions.names_inherited (filteredData P st)).
    { intros He. apply List.Exists_exists in He. destruct He as (d & Hd & Hi).
      rewrite List.Forall_forall in Hf. exact (Hf d Hd Hi). }
    assert (Hall : weights (filteredData P st) = []
                   <-> Forall (fun d =>
                         weight (JS.opt_trim (field d DataService.comprehensionIndex)) = None
                         /\ ~ Conditions.names_inherited d) (filteredData P st)).
    { rewrite weights_nil, !List.Forall_forall. rewrite List.Forall_forall in Hf.
      split; [intros H d Hd; split; auto | intros H d Hd; apply H, Hd]. }
    destruct (averageComprehension_plain P st Hlen Hf) as [[E ->]|(Hne & Hs & ->)].
    + split; [split; [discriminate | intros H; contradiction]|].
      split; [intros _; apply Hall, E | reflexivity].
    + rewrite <- Hall.
      destruct (27 * Z.of_nat (length (weights (filteredData P st)))
                <=? 10 * sum (weights (filteredData P st))).
      { split; (split; [discriminate | intros H; contradiction]). }
      destruct (2 * Z.of_nat (length (weights (filteredData P st)))
                <=? sum (weights (filteredData P st))).
      { split; (split; [discriminate | intros H; contradiction]). }
      destruct (Z.leb_spec (Z.of_nat (length (weights (filteredData P st))))
                  (sum (weights (filteredData P st)))); [|lia].
      split; (split; [discriminate | intros H'; contradiction]).
Qed.

Lemma X6_comprehension_lowest_witness :
  Exists Conditions.names_inherited
    (filteredData Samples.plain (Samples.answered [Samples.low; "hasOwnProperty"])).
Proof.
  destruct (X6_comprehension_lowest Samples.plain
              (Samples.answered [Samples.low; "hasOwnProperty"])) as [[H _] _].
  - vm_compute. reflexivity.
  - apply H. vm_compute. reflexivity.
Defined.

(** X7. When the exact mean of the kept scores has at most two decimals
    (the number of scores divides a hundred times their sum), the text of the
    mean score is exactly that mean, for an array below [2^32] elements. *)
Theorem X7_average_exact (P : Platform) (st : State) :
  Z.of_nat (length (allData st)) < 2 ^ 32 ->
  valid_scores (filteredData P st) <> [] ->
  (Z.of_nat (length (valid_scores (filteredData P st)))
   | 100 * sum (valid_scores (filteredData P st))) ->
  averageScore P st
  = JS.fixed2 (100 * sum (valid_scores (filteredData P st))
               / Z.of_nat (length (valid_scores (filteredData P st)))).
Proof.
  intros Hlen Hne [H Hdiv]. unfold averageScore.
  destruct (average_of_cases _ (valid_scores_range (filteredData P st)))
    as [[E _] | (_ & Hn & Hs & E)]; [contradiction|].
  rewrite E. f_equal.
  pose proof (valid_scores_length (filteredData P st)).
  pose proof (filteredData_length P st).
  pose proof (average_nearest _ _ Hn Hs ltac:(lia)) as Hnear.
  rewrite Hdiv, Z.div_mul by lia.
  rewrite Hdiv in Hnear.
  set (n := Z.of_nat (length (valid_scores (filteredData P st)))) in *.
  set (h := JS.hundredths (JS.div (sum (valid_scores (filteredData P st))) n)) in *.
  nia.
Qed.

Lemma X7_average_exact_witness :
  averageScore Samples.plain (Samples.scored ["7"; "8"; "x"; "10"; "10"]) = JS.fixed2 875.
Proof.
  rewrite (X7_average_exact Samples.plain (Samples.scored ["7"; "8"; "x"; "10"; "10"])).
  - vm_compute. reflexivity.
  - vm_compute. reflexivity.
  - vm_compute. discriminate.
  - exists 875. vm_compute. reflexivity.
Defined.

(** *** Priority list *)

Lemma or_else_nonempty (a : option string) (b : string) : b <> "" -> JS.or_else a b <> "".
Proof. intros Hb. destruct a as [[|c r]|]; simpl; [exact Hb | discriminate | exact Hb]. Qed.

(** X8. The name of a priority entry is never empty: it is [Desconocido]
    when the record has no e-mail address or when the part before the [@]
    upper-cases to nothing. *)
Theorem X8_priority_name (P : Platform) (d : TicketData) :
  name (to_priority P d) <> ""
  /\ (field d "Email Address" = None -> name (to_priority P d) = "Desconocido")
  /\ (forall e, field d "Email Address" = Some e ->
        toUpperCase P (JS.replace_char "." " " (JS.split_head "@" e)) = "" ->
        name (to_priority P d) = "Desconocido").
Proof.
  split; [|split].
  - simpl. apply or_else_nonempty. discriminate.
  - intros H. simpl. rewrite H. reflexivity.
  - intros e He Hu. simpl. rewrite He. simpl. rewrite Hu. reflexivity.
Qed.

(** X9. The priority list has at most as many entries as there are filtered
    records, and it is empty exactly when no filtered record has a score
    that parses to at most 7 or the lowest comprehension answer. *)
Theorem X9_priority_count (P : Platform) (st : State) :
  (length (priorityStudents P st) <= totalResponses P st)%nat
  /\ (priorityStudents P st = [] <->
      forall d, In d (filteredData P st) ->
        ~ Conditions.low_score d /\ ~ Conditions.lowest_comprehension d).
Proof.
  unfold priorityStudents, totalResponses. split.
  - rewrite length_map. apply filter_length_le.
  - split.
    + intros H d Hd.
      assert (Hn : ~ In d (List.filter is_priority (filteredData P st))).
      { destruct (List.filter is_priority (filteredData P st)); [tauto | discriminate]. }
      rewrite filter_In, is_priority_spec in Hn. tauto.
    + intros H.
      rewrite (nil_of_no_member (List.filter is_priority (filteredData P st)));
        [reflexivity|].
      intros d. rewrite filter_In, is_priority_spec. intros [Hd Hf].
      destruct (H d Hd). tauto.
Qed.

(** X25. The reason of a priority entry.  With the lowest comprehension and
    no low score it is the label of that answer; with a score [n] at most 7
    it names the score, after the low comprehension when the record has
    both.  The score is printed digit by digit when it is above [-2^53];
    from there on down its text is the platform's. *)
Theorem X25_priority_reason (P : Platform) (d : TicketData) :
  (Conditions.lowest_comprehension d -> ~ Conditions.low_score d ->
   razon (to_priority P d) = "Comprensión Baja: Perdido/a")
  /\ (forall n,
        JS.parseInt (field d DataService.scoreIndex) = Some n -> n <= 7 ->
        razon (to_priority P d)
        = (if lowComprehension d then "Comprensión Baja y Satisfacción Baja ("
           else "Satisfacción Baja (")
          +:+ (if - 2 ^ 53 <? n then pretty n else Number_toString P n) +:+ "/10)")
  /\ razon (to_priority P (Samples.ticket "5" Samples.low "ok"))
     = "Comprensión Baja y Satisfacción Baja (5/10)"
  /\ razon (to_priority P (Samples.ticket " 07.5" Samples.high "ok"))
     = "Satisfacción Baja (7/10)"
  /\ razon (to_priority P (Samples.ticket "-3" Samples.medium "ok"))
     = "Satisfacción Baja (-3/10)"
  /\ razon (to_priority P (Samples.ticket "-9007199254740993" Samples.medium "ok"))
     = "Satisfacción Baja (" +:+ Number_toString P (-9007199254740993) +:+ "/10)".
Proof.
  split; [|split].
  - intros Hc Hs. rewrite <- lowComprehension_spec in Hc. rewrite <- lowScore_spec in Hs.
    simpl razon. unfold reason. rewrite Hc.
    destruct (lowScore d); [destruct Hs; reflexivity|]. simpl andb. cbv iota.
    unfold lowComprehension in Hc. apply bool_decide_eq_true in Hc. rewrite Hc.
    vm_compute. reflexivity.
  - intros n Hp Hn. simpl razon. unfold reason, score_text, lowScore. rewrite Hp.
    replace (n <=? 7) with true by (symmetry; apply Z.leb_le; exact Hn).
    assert (E : (Z.abs n <? 2 ^ 53) = (- 2 ^ 53 <? n)).
    { change (2 ^ 53) with 9007199254740992.
      destruct (Z.ltb_spec (Z.abs n) 9007199254740992), (Z.ltb_spec (- 9007199254740992) n);
        try reflexivity; lia. }
    rewrite E. destruct (lowComprehension d); reflexivity.
  - repeat split; vm_compute; reflexivity.
Qed.

(** *** Grouped counts *)

Section ChartProperties.

Import Charts.

Lemma recorded_bump (k k0 : Category) (groups : list (Category * nat)) :
  recorded k0 (bump k groups)
  = (recorded k0 groups + if bool_decide (k0 = k) then 1 else 0)%nat.
Proof.
  induction groups as [|[k' n] rest IH]; simpl.
  - destruct (bool_decide (k0 = k)); lia.
  - destruct (bool_decide_reflect (k = k')) as [->|Hne]; simpl.
    + destruct (bool_decide_reflect (k0 = k')); lia.
    + destruct (bool_decide_reflect (k0 = k')) as [->|Hne'].
      * rewrite bool_decide_eq_false_2 by congruence. lia.
      * exact IH.
Qed.

Lemma bump_keys (k k0 : Category) (groups : list (Category * nat)) :
  In k0 (map fst (bump k groups)) <-> k0 = k \/ In k0 (map fst groups).
Proof.
  induction groups as [|[k' n] rest IH]; simpl; [intuition congruence|].
  destruct (bool_decide_reflect (k = k')) as [->|Hne]; simpl; [intuition congruence|].
  rewrite IH. intuition congruence.
Qed.

Lemma bump_NoDup (k : Category) (groups : list (Category * nat)) :
  List.NoDup (map fst groups) -> List.NoDup (map fst (bump k groups)).
Proof.
  induction groups as [|[k' n] rest IH]; simpl; intros Hnd.
  - repeat constructor. simpl. tauto.
  - inversion Hnd as [|? ? Hnot Hrest]; subst.
    destruct (bool_decide_reflect (k = k')) as [->|Hne]; simpl.
    + constructor; assumption.
    + constructor; [|apply IH; exact Hrest].
      rewrite bump_keys. intuition congruence.
Qed.

Lemma bump_positive (k : Category) (groups : list (Category * nat)) :
  Forall (fun g => (0 < snd g)%nat) groups -> Forall (fun g => (0 < snd g)%nat) (bump k groups).
Proof.
  induction 1 as [|[k' n] rest Hn Hrest IH]; simpl.
  - repeat constructor.
  - destruct (bool_decide (k = k')); constructor; simpl in *; try lia; assumption.
Qed.

Lemma recorded_In (k : Category) (n : nat) (groups : list (Category * nat)) :
  List.NoDup (map fst groups) -> In (k, n) groups -> recorded k groups = n.
Proof.
  induction groups as [|[k' n'] rest IH]; simpl; [tauto|].
  intros Hnd [H|H].
  - injection H as -> ->. rewrite bool_decide_eq_true_2; reflexivity.
  - inversion Hnd as [|? ? Hnot Hrest]; subst.
    destruct (bool_decide_reflect (k = k')) as [->|Hne].
    + destruct Hnot. apply (in_map fst) in H. exact H.
    + apply IH; assumption.
Qed.

Lemma In_recorded (k : Category) (groups : list (Category * nat)) :
  (0 < recorded k groups)%nat -> In (k, recorded k groups) groups.
Proof.
  induction groups as [|[k' n'] rest IH]; simpl; [lia|].
  destruct (bool_decide_reflect (k = k')) as [->|Hne]; [left; reflexivity|].
  intros H. right. apply IH. exact H.
Qed.

(** What holds of the groups after any number of records. *)
Lemma rollup_invariant (keys : list Category) (groups : list (Category * nat)) :
  List.NoDup (map fst groups) ->
  Forall (fun g => (0 < snd g)%nat) groups ->
  let result := foldl (fun groups k => bump k groups) groups keys in
  List.NoDup (map fst result)
  /\ Forall (fun g => (0 < snd g)%nat) result
  /\ forall k, recorded k result = (recorded k groups + occurrences k keys)%nat.
Proof.
  revert groups. induction keys as [|k keys IH]; intros groups Hnd Hpos; simpl.
  - split; [exact Hnd|]. split; [exact Hpos|]. intros k. unfold occurrences. simpl. lia.
  - destruct (IH (bump k groups) (bump_NoDup _ _ Hnd) (bump_positive _ _ Hpos))
      as (H1 & H2 & H3).
    split; [exact H1|]. split; [exact H2|].
    intros k0. rewrite H3, recorded_bump. unfold occurrences. simpl.
    rewrite (bool_decide_ext (k = k0) (k0 = k)) by (split; congruence).
    destruct (bool_decide (k0 = k)); simpl; lia.
Qed.

Lemma rollup_length_spec (keys : list Category) :
  List.NoDup (map fst (rollup_length keys))
  /\ forall k n, In (k, n) (rollup_length keys) <->
                 n = occurrences k keys /\ (0 < n)%nat.
Proof.
  destruct (rollup_invariant keys [] ltac:(constructor) ltac:(constructor))
    as (Hnd & Hpos & Hrec).
  fold (rollup_length keys) in *. split; [exact Hnd|].
  intros k n. split.
  - intros Hin. pose proof (recorded_In _ _ _ Hnd Hin) as E.
    rewrite Hrec in E. simpl in E. split; [lia|].
    rewrite List.Forall_forall in Hpos. apply (Hpos _ Hin).
  - intros [-> Hn]. specialize (Hrec k). simpl in Hrec. rewrite <- Hrec.
    apply In_recorded. lia.
Qed.

Lemma counted_bump (k : Category) (groups : list (Category * nat)) :
  counted (bump k groups) = (counted groups + if shown k then 1 else 0)%nat.
Proof.
  unfold counted. induction groups as [|[k' n] rest IH]; simpl.
  - destruct (shown k); simpl; lia.
  - destruct (bool_decide_reflect (k = k')) as [->|Hne]; simpl.
    + destruct (shown k'); simpl; lia.
    + destruct (shown k'); simpl; rewrite IH; lia.
Qed.

Lemma counted_rollup (keys : list Category) (groups : list (Category * nat)) :
  counted (foldl (fun groups k => bump k groups) groups keys)
  = (counted groups + length (List.filter shown keys))%nat.
Proof.
  revert groups. induction keys as [|k keys IH]; intros groups; simpl; [lia|].
  rewrite IH, counted_bump. destruct (shown k); simpl; lia.
Qed.

Lemma filter_map_length {A B : Type} (f : A -> B) (p : B -> bool) (l : list A) :
  length (List.filter p (map f l)) = length (List.filter (fun x => p (f x)) l).
Proof.
  induction l as [|x l IH]; simpl; [reflexivity|].
  destruct (p (f x)); simpl; rewrite IH; reflexivity.
Qed.

Lemma NoDup_filter_fst (p : Category * nat -> bool) (groups : list (Category * nat)) :
  List.NoDup (map fst groups) -> List.NoDup (map fst (List.filter p groups)).
Proof.
  induction groups as [|g rest IH]; simpl; intros Hnd; [constructor|].
  inversion Hnd as [|? ? Hnot Hrest]; subst.
  destruct (p g); simpl; [|apply IH; exact Hrest].
  constructor; [|apply IH; exact Hrest].
  intros Hin. apply Hnot. apply in_map_iff in Hin. destruct Hin as (g' & E & Hg').
  apply filter_In in Hg'. apply in_map_iff. exists g'. tauto.
Qed.

(** X10. [groupData] lists every category that is shown once, with the
    number of records in it, which is positive; the counts add up to the
    number of records whose category is shown.  The categories shown are the
    texts that are not empty and the values that [labels] inherits: a record
    whose trimmed answer is no key of [labels] but names an inherited
    property ([constructor], [toString], ...) is counted under that
    inherited value, not under its answer. *)
Theorem X10_groupData (rows : list TicketData) (key : string) (labels : gmap string string) :
  List.NoDup (map fst (groupData rows key labels))
  /\ (forall c n,
        In (c, n) (groupData rows key labels) <->
        ((exists a r, c = Some (JS.Own (String a r)))
         \/ (exists name, c = Some (JS.Inherited name)))
        /\ n = length (List.filter (fun d => bool_decide (category key labels d = c)) rows)
        /\ (0 < n)%nat)
  /\ (forall d,
        category key labels d
        = match JS.opt_trim (field d key) with
          | Some text =>
              match labels !! text with
              | Some (String a r) => Some (JS.Own (String a r))
              | Some EmptyString => Some (JS.Own text)
              | None => if bool_decide (text ∈ JS.Object_prototype)
                        then Some (JS.Inherited text) else Some (JS.Own text)
              end
          | None =>
              match labels !! "undefined" with
              | Some (String a r) => Some (JS.Own (String a r))
              | _ => None
              end
          end)
  /\ list_sum (map snd (groupData rows key labels))
     = length (List.filter (fun d => shown (category key labels d)) rows)
  /\ (list_sum (map snd (groupData rows key labels)) <= length rows)%nat.
Proof.
  destruct (rollup_length_spec (map (category key labels) rows)) as [Hnd Hin].
  assert (Hsum : list_sum (map snd (groupData rows key labels))
                 = length (List.filter (fun d => shown (category key labels d)) rows)).
  { unfold groupData, rollup_length.
    pose proof (counted_rollup (map (category key labels) rows) []) as H.
    unfold counted in H at 1. rewrite H. unfold counted. simpl.
    apply filter_map_length. }
  split; [|split; [|split; [|split]]].
  - unfold groupData. apply NoDup_filter_fst. exact Hnd.
  - intros c n. unfold groupData. rewrite filter_In, Hin. simpl.
    unfold occurrences. rewrite filter_map_length.
    split.
    + intros [[-> Hn] Ht]. destruct c as [[[|a r]|name]|]; try discriminate; eauto 6.
    + intros ([(a & r & ->)|(name & ->)] & -> & Hn); auto.
  - intros d. unfold category, JS.get.
    destruct (JS.opt_trim (field d key)) as [text|]; simpl.
    + destruct (labels !! text) as [[|a r]|]; [reflexivity | reflexivity |].
      destruct (bool_decide (text ∈ JS.Object_prototype)); reflexivity.
    + destruct (labels !! "undefined") as [[|a r]|]; reflexivity.
  - exact Hsum.
  - rewrite Hsum. apply filter_length_le.
Qed.

Example comprehensionData_example :
  comprehensionData
    [ Samples.ticket "8" Samples.low "ok"; Samples.ticket "8" " " "ok";
      Samples.ticket "8" Samples.high "ok"; Samples.ticket "8" "Otra" "ok";
      Samples.ticket "8" "constructor" "ok";
      Samples.ticket "8" (Samples.low +:+ " ") "ok" ]
  = [ (Some (JS.Own "Perdido/a"), 2%nat); (Some (JS.Own "¡Dominado!"), 1%nat);
      (Some (JS.Own "Otra"), 1%nat); (Some (JS.Inherited "constructor"), 1%nat) ].
Proof. vm_compute. reflexivity. Qed.

End ChartProperties.

(** *** Sharing links *)

Lemma append_cons (c : ascii) (s t : string) : String c s +:+ t = String c (s +:+ t).
Proof. reflexivity. Qed.

Lemma append_nil (t : string) : "" +:+ t = t.
Proof. reflexivity. Qed.

Lemma strip_prefix_spec (p s r : string) :
  JS.strip_prefix p s = Some r <-> s = p +:+ r.
Proof.
  revert s. induction p as [|a p IH]; intros s.
  - rewrite append_nil. simpl. split; congruence.
  - rewrite append_cons. destruct s as [|b s]; simpl; [split; discriminate|].
    destruct (Ascii.eqb_spec a b) as [->|Hne].
    + rewrite IH. split; congruence.
    + split; [discriminate | congruence].
Qed.

Lemma take_while_spec (p : ascii -> bool) (s : string) :
  exists post, s = JS.take_while p s +:+ post
               /\ Text.all_chars p (JS.take_while p s) = true
               /\ Text.stops p post.
Proof.
  induction s as [|c s (post & E & Ha & Hs)]; simpl.
  - exists "". repeat split.
  - destruct (p c) eqn:Hc.
    + exists post. rewrite append_cons, <- E. simpl. rewrite Hc, Ha. repeat split. exact Hs.
    + exists (String c s). repeat split. exact Hc.
Qed.

Lemma take_while_app (p : ascii -> bool) (s post : string) :
  Text.all_chars p s = true -> Text.stops p post -> JS.take_while p (s +:+ post) = s.
Proof.
  intros Ha Hs. induction s as [|c s IH].
  - rewrite append_nil. destruct post as [|c r]; [reflexivity|].
    simpl in *. rewrite Hs. reflexivity.
  - rewrite append_cons. simpl in *. apply andb_true_iff in Ha. destruct Ha as [Hc Ha].
    rewrite Hc, (IH Ha). reflexivity.
Qed.

Lemma take_while_head (p : ascii -> bool) (c : ascii) (s : string) :
  JS.take_while p (String c s) <> "" <-> p c = true.
Proof. simpl. destruct (p c); split; congruence. Qed.

(** one step of the scan *)
Lemma regex_capture_step (lit : string) (cls : ascii -> bool) (s : string) :
  JS.regex_capture lit cls s
  = match JS.strip_prefix lit s with
    | Some (String c r) =>
        if cls c then Some (JS.take_while cls (String c r))
        else match s with
             | EmptyString => None
             | String _ s' => JS.regex_capture lit cls s'
             end
    | _ => match s with
           | EmptyString => None
           | String _ s' => JS.regex_capture lit cls s'
           end
    end.
Proof.
  destruct s as [|a s]; simpl.
  - destruct (JS.strip_prefix lit "") as [[|c r]|]; simpl; try reflexivity.
    destruct (cls c); reflexivity.
  - destruct (JS.strip_prefix lit (String a s)) as [[|c r]|]; simpl; try reflexivity.
    destruct (cls c); reflexivity.
Qed.

Lemma capture_here (lit : string) (cls : ascii -> bool) (s : string) (c : ascii) (r : string) :
  JS.strip_prefix lit s = Some (String c r) ->
  cls c = true ->
  exists pre post,
    s = pre +:+ lit +:+ JS.take_while cls (String c r) +:+ post
    /\ JS.take_while cls (String c r) <> ""
    /\ Text.all_chars cls (JS.take_while cls (String c r)) = true
    /\ Text.stops cls post
    /\ forall pre' c' rest,
         s = pre' +:+ lit +:+ String c' rest -> cls c' = true ->
         (String.length pre <= String.length pre')%nat.
Proof.
  intros E Hc. apply strip_prefix_spec in E.
  destruct (take_while_spec cls (String c r)) as (post & Ep & Ha & Hs).
  exists "", post. rewrite append_nil, <- Ep.
  split; [exact E|]. split; [apply take_while_head; exact Hc|].
  split; [exact Ha|]. split; [exact Hs|].
  intros. simpl. lia.
Qed.

Lemma capture_later (lit : string) (cls : ascii -> bool) (a : ascii) (s run : string) :
  (forall c r, JS.strip_prefix lit (String a s) = Some (String c r) -> cls c = false) ->
  (exists pre post,
     s = pre +:+ lit +:+ run +:+ post
     /\ run <> ""
     /\ Text.all_chars cls run = true
     /\ Text.stops cls post
     /\ forall pre' c rest,
          s = pre' +:+ lit +:+ String c rest -> cls c = true ->
          (String.length pre <= String.length pre')%nat) ->
  exists pre post,
    String a s = pre +:+ lit +:+ run +:+ post
    /\ run <> ""
    /\ Text.all_chars cls run = true
    /\ Text.stops cls post
    /\ forall pre' c rest,
         String a s = pre' +:+ lit +:+ String c rest -> cls c = true ->
         (String.length pre <= String.length pre')%nat.
Proof.
  intros Hhere (pre & post & -> & Hne & Ha & Hs & Hleft).
  exists (String a pre), post. rewrite append_cons.
  split; [reflexivity|]. split; [exact Hne|]. split; [exact Ha|]. split; [exact Hs|].
  intros pre' c rest Hd Hc. destruct pre' as [|a' pre'].
  - rewrite append_nil in Hd. apply strip_prefix_spec in Hd.
    rewrite (Hhere _ _ Hd) in Hc. discriminate.
  - rewrite append_cons in Hd. injection Hd as _ Hd. simpl.
    specialize (Hleft _ _ _ Hd Hc). lia.
Qed.

Lemma regex_capture_sound (lit : string) (cls : ascii -> bool) (s run : string) :
  JS.regex_capture lit cls s = Some run ->
  exists pre post,
    s = pre +:+ lit +:+ run +:+ post
    /\ run <> ""
    /\ Text.all_chars cls run = true
    /\ Text.stops cls post
    /\ forall pre' c rest,
         s = pre' +:+ lit +:+ String c rest -> cls c = true ->
         (String.length pre <= String.length pre')%nat.
Proof.
  revert run. induction s as [|a s IH]; intros run; rewrite regex_capture_step.
  - destruct (JS.strip_prefix lit "") as [[|c r]|] eqn:E; try discriminate.
    destruct (cls c) eqn:Hc; [|discriminate].
    intros H. assert (run = JS.take_while cls (String c r)) as -> by congruence.
    apply capture_here; assumption.
  - destruct (JS.strip_prefix lit (String a s)) as [[|c r]|] eqn:E.
    + intros H. apply capture_later; [intros ? ? Hp; congruence | apply IH; exact H].
    + destruct (cls c) eqn:Hc.
      * intros H. assert (run = JS.take_while cls (String c r)) as -> by congruence.
        apply capture_here; assumption.
      * intros H. apply capture_later; [|apply IH; exact H].
        intros c' r' Hp. rewrite E in Hp. injection Hp as <- <-. exact Hc.
    + intros H. apply capture_later; [intros ? ? Hp; congruence | apply IH; exact H].
Qed.

Lemma regex_capture_none (lit : string) (cls : ascii -> bool) (s : string) :
  JS.regex_capture lit cls s = None <->
  forall pre c rest, s = pre +:+ lit +:+ String c rest -> cls c = false.
Proof.
  induction s as [|a s IH]; rewrite regex_capture_step.
  - destruct (JS.strip_prefix lit "") as [[|c r]|] eqn:E.
    + split; [|reflexivity]. intros _ pre c rest Hd.
      destruct pre; [|discriminate]. rewrite append_nil in Hd.
      apply strip_prefix_spec in Hd. congruence.
    + destruct (cls c) eqn:Hc.
      * split; [discriminate|]. intros H. apply strip_prefix_spec in E.
        specialize (H "" c r). rewrite append_nil in H. rewrite (H E) in Hc. discriminate.
      * split; [|reflexivity]. intros _ pre c' rest Hd.
        destruct pre; [|discriminate]. rewrite append_nil in Hd.
        apply strip_prefix_spec in Hd. congruence.
    + split; [|reflexivity]. intros _ pre c rest Hd.
      destruct pre; [|discriminate]. rewrite append_nil in Hd.
      apply strip_prefix_spec in Hd. congruence.
  - assert (Htail : (forall pre c rest, String a s = pre +:+ lit +:+ String c rest -> cls c = false)
                    <-> (forall c rest, JS.strip_prefix lit (String a s) = Some (String c rest)
                                        -> cls c = false)
                        /\ (forall pre c rest, s = pre +:+ lit +:+ String c rest -> cls c = false)).
    { split.
      - intros H. split.
        + intros c rest Hp. apply strip_prefix_spec in Hp. apply (H "" c rest).
          rewrite append_nil. exact Hp.
        + intros pre c rest Hd. apply (H (String a pre) c rest).
          rewrite append_cons, Hd. reflexivity.
      - intros [H1 H2] pre c rest Hd. destruct pre as [|a' pre].
        + rewrite append_nil in Hd. apply strip_prefix_spec in Hd. eauto.
        + rewrite append_cons in Hd. injection Hd as _ Hd. eauto. }
    rewrite Htail, <- IH.
    destruct (JS.strip_prefix lit (String a s)) as [[|c r]|] eqn:E.
    + split; [intros H; split; [discriminate | exact H] | tauto].
    + destruct (cls c) eqn:Hc.
      * split; [discriminate|]. intros [H _]. rewrite (H c r eq_refl) in Hc. discriminate.
      * split; [|tauto]. intros H. split; [|exact H]. congruence.
    + split; [intros H; split; [discriminate | exact H] | tauto].
Qed.

(** X11. When a URL matches, the identifier taken is the longest run of
    identifier characters after the first [/d/] that is followed by one; it
    is not empty.  A URL does not match exactly when no [/d/] in it is
    followed by an identifier character. *)
Theorem X11_match_sheet_id (url : string) :
  (forall sheetId,
     DataService.match_sheet_id url = Some sheetId ->
     exists pre post,
       url = pre +:+ "/d/" +:+ sheetId +:+ post
       /\ sheetId <> ""
       /\ Text.all_chars DataService.id_char sheetId = true
       /\ Text.stops DataService.id_char post
       /\ forall pre' c rest,
            url = pre' +:+ "/d/" +:+ String c rest -> DataService.id_char c = true ->
            (String.length pre <= String.length pre')%nat)
  /\ (DataService.match_sheet_id url = None <->
      forall pre c rest,
        url = pre +:+ "/d/" +:+ String c rest -> DataService.id_char c = false).
Proof.
  split.
  - intros sheetId H. apply regex_capture_sound. exact H.
  - apply regex_capture_none.
Qed.

Lemma regex_capture_skip (lit : string) (cls : ascii -> bool) (a : ascii) (s : string) :
  JS.strip_prefix lit (String a s) = None ->
  JS.regex_capture lit cls (String a s) = JS.regex_capture lit cls s.
Proof. intros H. rewrite regex_capture_step, H. reflexivity. Qed.

Lemma take_while_all (p : ascii -> bool) (s : string) :
  Text.all_chars p s = true -> JS.take_while p s = s.
Proof.
  intros H. rewrite <- (append_empty_r s) at 1. apply take_while_app; [exact H | exact I].
Qed.

Lemma regex_capture_here (lit : string) (cls : ascii -> bool) (run post : string) :
  run <> "" -> Text.all_chars cls run = true -> Text.stops cls post ->
  JS.regex_capture lit cls (lit +:+ run +:+ post) = Some run.
Proof.
  intros Hne Ha Hs. rewrite regex_capture_step.
  assert (E : JS.strip_prefix lit (lit +:+ run +:+ post) = Some (run +:+ post))
    by (apply strip_prefix_spec; reflexivity).
  rewrite E. destruct run as [|c r]; [contradiction|].
  rewrite append_cons. simpl in Ha. apply andb_true_iff in Ha. destruct Ha as [Hc Ha].
  rewrite Hc. rewrite <- append_cons. rewrite take_while_app; [reflexivity | | exact Hs].
  simpl. rewrite Hc, Ha. reflexivity.
Qed.

Lemma id_char_not_eq (c : ascii) : DataService.id_char c = true -> Ascii.eqb "=" c = false.
Proof.
  destruct c as [[] [] [] [] [] [] [] []]; vm_compute; congruence.
Qed.

Lemma strip_prefix_cons (a b : ascii) (p s : string) :
  JS.strip_prefix (String a p) (String b s)
  = if Ascii.eqb a b then JS.strip_prefix p s else None.
Proof. reflexivity. Qed.

Ltac expose_chars := repeat first [rewrite append_cons | rewrite append_nil].

Lemma gid_not_in_id (s post : string) :
  Text.all_chars DataService.id_char s = true ->
  s <> "" ->
  JS.strip_prefix "gid=" (s +:+ "/export?format=csv&gid=" +:+ post) = None.
Proof.
  intros Ha Hne.
  destruct s as [|c1 s]; [contradiction|].
  destruct s as [|c2 s].
  { expose_chars. rewrite !strip_prefix_cons.
    destruct (Ascii.eqb "g" c1); reflexivity. }
  destruct s as [|c3 s].
  { expose_chars. rewrite !strip_prefix_cons.
    destruct (Ascii.eqb "g" c1), (Ascii.eqb "i" c2); reflexivity. }
  destruct s as [|c4 s].
  { expose_chars. rewrite !strip_prefix_cons.
    destruct (Ascii.eqb "g" c1), (Ascii.eqb "i" c2), (Ascii.eqb "d" c3); reflexivity. }
  simpl in Ha. repeat (apply andb_true_iff in Ha; destruct Ha as [? Ha]).
  expose_chars. rewrite !strip_prefix_cons.
  rewrite (id_char_not_eq c4) by assumption.
  destruct (Ascii.eqb "g" c1), (Ascii.eqb "i" c2), (Ascii.eqb "d" c3); reflexivity.
Qed.

Lemma gid_skip_id (s post : string) :
  Text.all_chars DataService.id_char s = true ->
  JS.regex_capture "gid=" JS.is_digit (s +:+ "/export?format=csv&gid=" +:+ post)
  = JS.regex_capture "gid=" JS.is_digit ("/export?format=csv&gid=" +:+ post).
Proof.
  induction s as [|c s IH]; intros Ha; [reflexivity|].
  rewrite append_cons, regex_capture_skip.
  - apply IH. simpl in Ha. apply andb_true_iff in Ha. tauto.
  - rewrite <- append_cons. apply gid_not_in_id; [exact Ha | discriminate].
Qed.

Lemma export_url_matches (sheetId gid : string) :
  Text.all_chars DataService.id_char sheetId = true -> sheetId <> "" ->
  Text.all_chars JS.is_digit gid = true -> gid <> "" ->
  DataService.match_sheet_id (DataService.csvUrl sheetId gid) = Some sheetId
  /\ DataService.match_gid (DataService.csvUrl sheetId gid) = Some gid.
Proof.
  intros Hid Hne Hg Hgne.
  unfold DataService.match_sheet_id, DataService.match_gid, DataService.csvUrl. split.
  - rewrite !append_cons, append_nil.
    repeat (rewrite regex_capture_skip by reflexivity).
    apply (regex_capture_here "/d/"); [exact Hne | exact Hid | reflexivity].
  - set (tail := "/export?format=csv&gid=" +:+ gid).
    rewrite !append_cons, append_nil.
    repeat (rewrite regex_capture_skip by reflexivity).
    subst tail. rewrite gid_skip_id by exact Hid.
    rewrite !append_cons, append_nil.
    repeat (rewrite regex_capture_skip by reflexivity).
    change (JS.regex_capture "gid=" JS.is_digit ("gid=" +:+ gid) = Some gid).
    rewrite <- (append_empty_r gid) at 1.
    apply (regex_capture_here "gid="); [exact Hgne | exact Hg | exact I].
Qed.

(** X12. The export URL derived from a sharing link is itself a link with
    the same identifier and the same sheet number, so an import from the
    export URL fetches that same URL. *)
Theorem X12_export_url_fixpoint (url sheetId : string) :
  DataService.match_sheet_id url = Some sheetId ->
  DataService.match_sheet_id
    (DataService.csvUrl sheetId (default "0" (DataService.match_gid url))) = Some sheetId
  /\ DataService.match_gid
       (DataService.csvUrl sheetId (default "0" (DataService.match_gid url)))
     = Some (default "0" (DataService.match_gid url)).
Proof.
  intros Hm. apply regex_capture_sound in Hm.
  destruct Hm as (_ & _ & _ & Hne & Hid & _).
  apply export_url_matches; try assumption.
  - destruct (DataService.match_gid url) as [g|] eqn:Hg; [|reflexivity].
    apply regex_capture_sound in Hg. destruct Hg as (_ & _ & _ & _ & H & _). exact H.
  - destruct (DataService.match_gid url) as [g|] eqn:Hg; [|discriminate].
    apply regex_capture_sound in Hg. destruct Hg as (_ & _ & _ & H & _). exact H.
Qed.

Lemma X12_export_url_fixpoint_witness :
  DataService.match_sheet_id
    (DataService.csvUrl "1AbC-_x9" (default "0" (DataService.match_gid Samples.sheet)))
  = Some "1AbC-_x9"
  /\ DataService.match_gid
       (DataService.csvUrl "1AbC-_x9" (default "0" (DataService.match_gid Samples.sheet)))
     = Some (default "0" (DataService.match_gid Samples.sheet)).
Proof.
  apply (X12_export_url_fixpoint Samples.sheet "1AbC-_x9"). vm_compute. reflexivity.
Defined.

(** *** Imports *)

Lemma hasAllRequired_spec (row : gmap string string) :
  DataService.hasAllRequired row = true <->
  forall header, header ∈ DataService.requiredHeaders -> is_Some (row !! header).
Proof.
  unfold DataService.hasAllRequired. rewrite forallb_forall. split.
  - intros H header Hin. apply list_elem_of_In in Hin.
    specialize (H _ Hin). apply bool_decide_eq_true_1 in H. exact H.
  - intros H header Hin. apply list_elem_of_In in Hin.
    apply bool_decide_eq_true_2. auto.
Qed.

Lemma loadDataFromSheet_inr (P : Platform) (W : World) (url : string) (rows : list TicketData) :
  DataService.loadDataFromSheet P W url = inr rows <->
  exists sheetId csvData results,
    DataService.match_sheet_id url = Some sheetId
    /\ http_get W (DataService.csvUrl sheetId (default "0" (DataService.match_gid url)))
       = inl csvData
    /\ Papa_parse W csvData = PapaComplete results
    /\ errors results = []
    /\ (exists row0 more,
          data results = row0 :: more
          /\ forall header, header ∈ DataService.requiredHeaders -> is_Some (row0 !! header))
    /\ rows = DataService.processedData P (data results).
Proof.
  unfold DataService.loadDataFromSheet. split.
  - destruct url as [|c r]; [discriminate|]. simpl JS.truthy. simpl negb. cbv iota.
    destruct (DataService.match_sheet_id (String c r)) as [sheetId|]; [|discriminate].
    destruct (http_get W _) as [csvData|m] eqn:Hget; [|discriminate].
    unfold DataService.on_parsed.
    destruct (Papa_parse W csvData) as [results|m] eqn:Hp; [|discriminate].
    destruct (errors results) as [|first more] eqn:He; [|discriminate].
    destruct (data results) as [|row0 more] eqn:Hd; [discriminate|].
    destruct (DataService.hasAllRequired row0) eqn:Hh; [|discriminate].
    intros [= <-]. exists sheetId, csvData, results.
    repeat split; try assumption; try reflexivity.
    + exists row0, more. split; [assumption|]. apply hasAllRequired_spec. exact Hh.
    + rewrite Hd. reflexivity.
  - intros (sheetId & csvData & results & Hm & Hget & Hp & He & (row0 & more & Hd & Hh) & ->).
    rewrite (match_sheet_id_nonempty _ _ Hm). simpl negb. cbv iota.
    rewrite Hm, Hget, Hp. unfold DataService.on_parsed. rewrite He, Hd.
    apply hasAllRequired_spec in Hh. rewrite Hh. reflexivity.
Qed.

(** X13. An import succeeds exactly when the URL matches, the export is
    fetched, the parser reports no error, there is at least one row and the
    first row has every required header; the records are then made from the
    parsed rows.  Only the first row is tested for the headers. *)
Theorem X13_import_success (P : Platform) (W : World) (url : string) (rows : list TicketData) :
  DataService.loadDataFromSheet P W url = inr rows <->
  exists sheetId csvData results,
    DataService.match_sheet_id url = Some sheetId
    /\ http_get W (DataService.csvUrl sheetId (default "0" (DataService.match_gid url)))
       = inl csvData
    /\ Papa_parse W csvData = PapaComplete results
    /\ errors results = []
    /\ (exists row0 more,
          data results = row0 :: more
          /\ forall header, header ∈ DataService.requiredHeaders -> is_Some (row0 !! header))
    /\ rows = DataService.processedData P (data results).
Proof. apply loadDataFromSheet_inr. Qed.

(** X14. The first check that fails decides the error of an import: an
    empty URL before anything else; a failed request with its message; a
    parser failure; the first message of the parser's errors, also when
    there is no row; then the absence of rows. *)
Theorem X14_import_errors (P : Platform) (W : World) (url : string) :
  (url = "" -> DataService.loadDataFromSheet P W url = inl DataService.EmptyUrl)
  /\ (forall sheetId,
        DataService.match_sheet_id url = Some sheetId ->
        match http_get W (DataService.csvUrl sheetId
                            (default "0" (DataService.match_gid url))) with
        | inr m => DataService.loadDataFromSheet P W url = inl (DataService.FetchError m)
        | inl csvData =>
            match Papa_parse W csvData with
            | PapaError m =>
                DataService.loadDataFromSheet P W url = inl (DataService.PapaLoadError m)
            | PapaComplete results =>
                (forall first more, errors results = first :: more ->
                   DataService.loadDataFromSheet P W url
                   = inl (DataService.ParseError first))
                /\ (errors results = [] -> data results = [] ->
                    DataService.loadDataFromSheet P W url = inl DataService.EmptySheet)
            end
        end).
Proof.
  split.
  - intros ->. reflexivity.
  - intros sheetId Hm. unfold DataService.loadDataFromSheet.
    rewrite (match_sheet_id_nonempty _ _ Hm). simpl negb. cbv iota. rewrite Hm.
    destruct (http_get W _) as [csvData|m]; [|reflexivity].
    unfold DataService.on_parsed.
    destruct (Papa_parse W csvData) as [results|m]; [|reflexivity].
    split.
    + intros first more ->. reflexivity.
    + intros -> ->. reflexivity.
Qed.

(** X15. When the URL does not match, the import fails with the empty-URL
    or the invalid-URL error whatever the network and the parser would
    answer: nothing is fetched. *)
Theorem X15_import_offline (P : Platform) (W W' : World) (url : string) :
  DataService.match_sheet_id url = None ->
  DataService.loadDataFromSheet P W url = DataService.loadDataFromSheet P W' url
  /\ exists e, DataService.loadDataFromSheet P W url = inl e
               /\ (e = DataService.EmptyUrl \/ e = DataService.InvalidUrl).
Proof.
  intros Hm. unfold DataService.loadDataFromSheet. rewrite Hm.
  destruct (negb (JS.truthy (Some url))); (split; [reflexivity|]); eauto.
Qed.

Lemma X15_import_offline_witness :
  DataService.loadDataFromSheet Samples.plain (Samples.world Samples.full_row)
    "https://example.org/hoja"
  = DataService.loadDataFromSheet Samples.plain (Samples.world Samples.short_row)
      "https://example.org/hoja"
  /\ exists e,
       DataService.loadDataFromSheet Samples.plain (Samples.world Samples.full_row)
         "https://example.org/hoja" = inl e
       /\ (e = DataService.EmptyUrl \/ e = DataService.InvalidUrl).
Proof.
  apply (X15_import_offline Samples.plain (Samples.world Samples.full_row)
           (Samples.world Samples.short_row) "https://example.org/hoja").
  vm_compute. reflexivity.
Defined.

Lemma processedData_materia (P : Platform) (rows : list (gmap string string)) :
  Forall Records.has_materia (DataService.processedData P rows).
Proof.
  unfold DataService.processedData. apply List.Forall_forall. intros d Hd.
  apply in_map_iff in Hd. destruct Hd as (row & <- & Hrow).
  apply filter_In in Hrow. destruct Hrow as [_ Ht].
  unfold Records.has_materia, Materia, field, DataService.to_ticket. simpl.
  rewrite lookup_delete_ne by discriminate.
  destruct (row !! "Materia") as [[|c r]|]; simpl in Ht; try discriminate.
  eexists. split; [reflexivity | discriminate].
Qed.

Lemma processedData_sublist (P : Platform) (rows : list (gmap string string)) :
  exists kept, sublist kept rows
               /\ DataService.processedData P rows = map (DataService.to_ticket P) kept
               /\ forall row, In row kept <->
                    In row rows /\ exists m, row !! "Materia" = Some m /\ m <> "".
Proof.
  exists (List.filter (fun row => JS.truthy (row !! "Materia")) rows).
  split; [apply filter_sublist|]. split; [reflexivity|].
  intros row. rewrite filter_In. split; intros [Hin Ht]; (split; [exact Hin|]).
  - destruct (row !! "Materia") as [[|c r]|]; simpl in Ht; try discriminate.
    eexists. split; [reflexivity | discriminate].
  - destruct Ht as (m & -> & Hm). destruct m; [contradiction | reflexivity].
Qed.

(** X16. The records of a successful import are made, in order, from
    exactly the parsed rows whose category is not empty, so every record
    has a non-empty category. *)
Theorem X16_import_records (P : Platform) (W : World) (url : string)
    (rows : list TicketData) :
  DataService.loadDataFromSheet P W url = inr rows ->
  Forall Records.has_materia rows
  /\ exists csvData results kept,
       Papa_parse W csvData = PapaComplete results
       /\ sublist kept (data results)
       /\ rows = map (DataService.to_ticket P) kept
       /\ forall row, In row kept <->
            In row (data results) /\ exists m, row !! "Materia" = Some m /\ m <> "".
Proof.
  intros H. apply loadDataFromSheet_inr in H.
  destruct H as (_ & csvData & results & _ & _ & Hp & _ & _ & ->).
  split; [apply processedData_materia|].
  destruct (processedData_sublist P (data results)) as (kept & Hs & E & Hk).
  exists csvData, results, kept. auto.
Qed.

Lemma X16_import_records_witness :
  Forall Records.has_materia
    [DataService.to_ticket Samples.plain Samples.full_row].
Proof.
  destruct (X16_import_records Samples.plain (Samples.world Samples.full_row)
              Samples.sheet [DataService.to_ticket Samples.plain Samples.full_row])
    as [H _].
  - vm_compute. reflexivity.
  - exact H.
Defined.




(** *** Reports *)

Lemma read_write_same (sig : Signal) (v : Summary) (s : Summaries) :
  read sig (write sig v s) = v.
Proof. destruct sig; reflexivity. Qed.

Lemma read_write_other (sig sig' : Signal) (v : Summary) (s : Summaries) :
  sig' <> sig -> read sig' (write sig v s) = read sig' s.
Proof. intros H. destruct sig, sig'; try reflexivity; contradiction. Qed.

Lemma write_write (sig : Signal) (v v' : Summary) (s : Summaries) :
  write sig v' (write sig v s) = write sig v' s.
Proof. destruct sig; reflexivity. Qed.

Lemma sent_cons (key : string) (d : TicketData) (rows : list TicketData) :
  Frame.sent key (d :: rows)
  = match field d key with
    | Some s => if meaningful (Some (JS.trim s))
                then JS.trim s :: Frame.sent key rows
                else Frame.sent key rows
    | None => Frame.sent key rows
    end.
Proof. unfold Frame.sent. destruct (field d key) eqn:E; csimpl; rewrite E; reflexivity. Qed.

Lemma responses_of_cons (key : string) (d : TicketData) (rows : list TicketData) :
  responses_of key (d :: rows)
  = if meaningful (JS.opt_trim (field d key))
    then JS.opt_trim (field d key) :: responses_of key rows
    else responses_of key rows.
Proof. reflexivity. Qed.

Lemma responses_sent (key : string) (rows : list TicketData) :
  default "" <$> responses_of key rows = Frame.sent key rows.
Proof.
  induction rows as [|d rows IH]; [reflexivity|].
  rewrite responses_of_cons, sent_cons.
  destruct (field d key) as [s|].
  - change (JS.opt_trim (Some s)) with (Some (JS.trim s)).
    destruct (meaningful (Some (JS.trim s))); [|exact IH].
    rewrite fmap_cons, IH. reflexivity.
  - change (JS.opt_trim None) with (@None string).
    change (meaningful None) with false. exact IH.
Qed.

(** X19. [generateSummary] changes no report other than the one of its
    kind, and nothing of the component outside the reports; it issues at
    most one request. *)
Theorem X19_generateSummary_frame (P : Platform) (type : SummaryType) (st : State) :
  (forall sig, sig <> summarySignal type ->
     read sig (summaries (generateSummary P type st)) = read sig (summaries st))
  /\ Frame.same_outside_reports st (generateSummary P type st)
  /\ (requests (generateSummary P type st) = requests st
      \/ exists r, requests (generateSummary P type st) = requests st ++ [r]).
Proof.
  unfold generateSummary.
  destruct (filteredData P st) as [|d rows].
  { split; [reflexivity|]. split; [repeat split | left; reflexivity]. }
  destruct (responses_of (dataIndex type) (d :: rows)) as [|t ts].
  - split; [intros sig H; simpl; apply read_write_other; exact H|].
    split; [repeat split | left; reflexivity].
  - split; [intros sig H; simpl; apply read_write_other; exact H|].
    split; [repeat split | right; eexists; reflexivity].
Qed.

(** X20. When at least one answer is kept, [generateSummary] issues exactly
    one request, with the prompt of its kind, whose query lists the kept
    answers, trimmed, in the order of the records (a missing answer is
    never sent as an empty entry), and sets the report of its kind to
    loading with no content. *)
Theorem X20_generateSummary_request (P : Platform) (type : SummaryType) (st : State) :
  Frame.sent (dataIndex type) (filteredData P st) <> [] ->
  requests (generateSummary P type st)
  = requests st
    ++ [ {| userQuery :=
              "Contexto: Materia: "
              +:+ (if JS.not_ (selectedMateria (filters st)) then "Todas"
                   else selectedMateria (filters st))
              +:+ ". Respuestas a analizar:" +:+ JS.LF +:+ JS.LF
              +:+ JS.join (JS.LF +:+ "---" +:+ JS.LF)
                    (Frame.sent (dataIndex type) (filteredData P st));
            systemPrompt := summaryPrompt type;
            stateSignal := summarySignal type |} ]
  /\ read (summarySignal type) (summaries (generateSummary P type st))
     = {| loading := true; content := None |}.
Proof.
  intros Hne. rewrite <- responses_sent in *.
  unfold generateSummary.
  destruct (filteredData P st) as [|d rows]; [contradiction Hne; reflexivity|].
  destruct (responses_of (dataIndex type) (d :: rows)) as [|t ts] eqn:E;
    [contradiction Hne; reflexivity|].
  simpl. rewrite read_write_same. split; [|reflexivity].
  do 4 f_equal. destruct (selectedMateria (filters st)); reflexivity.
Qed.

Lemma X20_generateSummary_request_witness :
  read Learnings
    (summaries (generateSummary Samples.plain learnings_t
                  (Samples.learned ["no"; " Derivadas "; ""])))
  = {| loading := true; content := None |}.
Proof.
  destruct (X20_generateSummary_request Samples.plain learnings_t
              (Samples.learned ["no"; " Derivadas "; ""])) as [_ H].
  - vm_compute. discriminate.
  - exact H.
Defined.

(** X21. When a request settles, its report is no longer loading and has
    content: the rendered text; or, when the service failed, an error
    paragraph with the wrapped message; or, when the response carried no
    text, an error paragraph with the message of the error that
    [marked.parse] throws, which has no such prefix.  The other five
    reports, the issued requests and the rest of the component are
    unchanged. *)
Theorem X21_callGemini_settle (P : Platform) (sig : Signal) (marked_error : string)
    (response : option string + string) (st : State) :
  let st' := callGemini_settle P sig
               (Frame.attempt marked_error (GeminiService.generateContent response)) st in
  loading (read sig (summaries st')) = false
  /\ content (read sig (summaries st'))
     = Some match response with
            | inl (Some text) => marked_parse P text
            | inl None => Frame.errorContent marked_error
            | inr error => Frame.errorContent ("Failed to generate content: " +:+ error)
            end
  /\ (forall sig', sig' <> sig -> read sig' (summaries st') = read sig' (summaries st))
  /\ requests st' = requests st
  /\ Frame.same_outside_reports st st'.
Proof.
  cbv zeta. destruct response as [[text|]|error]; simpl;
    rewrite read_write_same;
    (split; [reflexivity|]); (split; [reflexivity|]);
    (split; [intros sig' H; apply read_write_other; exact H|]);
    (split; [reflexivity|]); repeat split.
Qed.

(** X22. Nothing cancels a request: of two results for the same report the
    one that settles last is the one kept; a result that arrives after
    [applyFilters] reset the report is stored all the same; and after two
    requests for one report, the first result to arrive turns its loading
    flag off although one request is still pending. *)
Theorem X22_settle_last_wins (P : Platform) (sig : Signal)
    (r1 r2 : string + string) (q1 p1 q2 p2 : string) (st : State) :
  callGemini_settle P sig r2 (callGemini_settle P sig r1 st) = callGemini_settle P sig r2 st
  /\ read sig (summaries (callGemini_settle P sig r1 (applyFilters st)))
     = read sig (summaries (callGemini_settle P sig r1 st))
  /\ loading (read sig (summaries
       (callGemini_settle P sig r1 (callGemini q2 p2 sig (callGemini q1 p1 sig st)))))
     = false
  /\ length (requests
       (callGemini_settle P sig r1 (callGemini q2 p2 sig (callGemini q1 p1 sig st))))
     = (length (requests st) + 2)%nat.
Proof.
  split; [|split; [|split]].
  - destruct r1, r2; simpl; unfold with_summaries; simpl; rewrite write_write; reflexivity.
  - destruct r1; simpl; rewrite !read_write_same; reflexivity.
  - destruct r1; simpl; rewrite !read_write_same; reflexivity.
  - destruct r1; simpl; rewrite !length_app; simpl; lia.
Qed.

(** *** Session plan and study guide *)

Lemma requiredFields_complete (m : ModalForm) :
  existsb JS.not_ (requiredFields m) = false <-> Plan.complete m.
Proof.
  unfold requiredFields, Plan.complete. simpl.
  rewrite !orb_false_iff, !not_nonempty. tauto.
Qed.

Lemma app_one_ne {A : Type} (l : list A) (x : A) : l ++ [x] <> l.
Proof.
  intros H. apply (f_equal length) in H. rewrite length_app in H. simpl in H. lia.
Qed.

(** X23. [generateLessonPlan] issues a request exactly when none of the
    five mandatory inputs is empty (the optional product never matters).
    It is then one request for the plan, with the plan prompt; the plan is
    set to loading, the other reports are unchanged, the form is hidden and
    its error message cleared.  A form that was opened stays open exactly
    when an input is missing. *)
Theorem X23_generateLessonPlan_exact (st : State) :
  ((exists r, requests (generateLessonPlan st) = requests st ++ [r])
   <-> Plan.complete (modal st))
  /\ (Plan.complete (modal st) ->
      (exists query,
          requests (generateLessonPlan st)
          = requests st ++ [ {| userQuery := query;
                                systemPrompt := lessonPlanPrompt (modal st);
                                stateSignal := LessonPlan |} ])
      /\ lessonPlan (summaries (generateLessonPlan st))
         = {| loading := true; content := None |}
      /\ (forall sig, sig <> LessonPlan ->
            read sig (summaries (generateLessonPlan st)) = read sig (summaries st))
      /\ isModalVisible (toggles (generateLessonPlan st)) = false
      /\ modalErrorMessage (modal (generateLessonPlan st)) = None)
  /\ (isModalVisible (toggles (generateLessonPlan (Dialog.openModal st))) = true
      <-> ~ Plan.complete (modal st)).
Proof.
  unfold generateLessonPlan.
  destruct (existsb JS.not_ (requiredFields (modal (with_modal (set_modalErrorMessage None) st))))
    eqn:E.
  - assert (Hn : ~ Plan.complete (modal st)).
    { intros Hc. apply requiredFields_complete in Hc.
      change (requiredFields (modal (with_modal (set_modalErrorMessage None) st)))
        with (requiredFields (modal st)) in E. congruence. }
    change (requiredFields
              (modal (with_modal (set_modalErrorMessage None) (Dialog.openModal st))))
      with (requiredFields (modal (with_modal (set_modalErrorMessage None) st))).
    rewrite E. split; [|split].
    + split; [|tauto]. intros [r Hr]. simpl in Hr. symmetry in Hr.
      destruct (app_one_ne _ _ Hr).
    + tauto.
    + simpl. tauto.
  - assert (Hc : Plan.complete (modal st)).
    { apply requiredFields_complete. exact E. }
    change (requiredFields
              (modal (with_modal (set_modalErrorMessage None) (Dialog.openModal st))))
      with (requiredFields (modal (with_modal (set_modalErrorMessage None) st))).
    rewrite E. split; [|split].
    + split; [tauto|]. intros _. eexists. reflexivity.
    + intros _. split; [eexists; reflexivity|]. split; [reflexivity|].
      split; [|split; reflexivity].
      intros sig H. destruct sig; try reflexivity. contradiction.
    + simpl. split; [discriminate | tauto].
Qed.

(** X24. [generateStudentGuide] does nothing exactly when the plan has no
    content, empty content, or is loading; so it does nothing right after
    [applyFilters] and right after a plan was requested.  Otherwise it
    issues one request for the guide, sets the guide to loading and leaves
    the plan as it is. *)
Theorem X24_generateStudentGuide_noop (st : State) :
  (generateStudentGuide st = st <->
   content (lessonPlan (summaries st)) = None
   \/ content (lessonPlan (summaries st)) = Some ""
   \/ loading (lessonPlan (summaries st)) = true)
  /\ generateStudentGuide (applyFilters st) = applyFilters st
  /\ (Plan.complete (modal st) ->
      generateStudentGuide (generateLessonPlan st) = generateLessonPlan st)
  /\ (forall plan,
        lessonPlan (summaries st) = {| loading := false; content := Some plan |} ->
        plan <> "" ->
        (exists query,
            requests (generateStudentGuide st)
            = requests st ++ [ {| userQuery := query; systemPrompt := studentGuidePrompt;
                                  stateSignal := StudentGuide |} ])
        /\ studentGuide (summaries (generateStudentGuide st))
           = {| loading := true; content := None |}
        /\ lessonPlan (summaries (generateStudentGuide st)) = lessonPlan (summaries st)).
Proof.
  split; [|split; [|split]].
  - unfold generateStudentGuide.
    destruct (content (lessonPlan (summaries st))) as [[|c r]|] eqn:Ec; simpl.
    + split; [auto | reflexivity].
    + destruct (loading (lessonPlan (summaries st))) eqn:El.
      * split; [auto | reflexivity].
      * split.
        -- intros H. apply (f_equal requests) in H. simpl in H.
           destruct (app_one_ne _ _ H).
        -- intros [H|[H|H]]; discriminate.
    + split; [auto | reflexivity].
  - reflexivity.
  - intros Hc. apply requiredFields_complete in Hc.
    unfold generateLessonPlan.
    change (requiredFields (modal (with_modal (set_modalErrorMessage None) st)))
      with (requiredFields (modal st)).
    rewrite Hc. reflexivity.
  - intros plan Hp Hne. unfold generateStudentGuide. rewrite Hp. simpl.
    destruct plan as [|c r]; [contradiction|]. simpl.
    split; [eexists; reflexivity|]. split; [reflexivity | congruence].
Qed.
